(** * rag-ai-agent: the PDF ingestion and question-answering pipeline

    A shallow embedding of [src/smart_pdf_loader.py], [src/ingestion.py] and
    [src/pdf_chat.py].

    - Python [str] values are sequences of Unicode code points ([list N]), so
      that [len] is [length] and [str.strip] removes exactly the code points
      Python regards as whitespace.
    - A [Document] is its [page_content] and its [metadata] dict, a finite
      map from keys to Python values.
    - The file system, the persisted Chroma collections, the random source
      and the log of calls made to the external collaborators form the
      [World]; methods are computations in a state-and-exception monad over
      it.
    - PyMuPDF, pdf2image, Tesseract, the LangChain text splitter, the
      retriever and the chat model are collaborators outside the repository:
      they are taken as functions ([Collaborators]) and nothing is assumed
      about them unless a theorem states it as a hypothesis. *)

From Stdlib Require Import ZArith NArith String Ascii List Lia.
From stdpp Require Import gmap strings list fin_maps pretty sorting.

Local Open Scope Z_scope.

(** ** Python strings *)

Module Py.

(** A Python [str]: its code points. *)
Abbreviation str := (list N).

(** Decoding of the UTF-8 bytes of a literal of this file into code points. *)
Fixpoint utf8_decode (bs : list N) : str :=
  match bs with
  | [] => []
  | b :: rest =>
      if (b <? 0x80)%N then b :: utf8_decode rest
      else if (b <? 0xE0)%N then
        match rest with
        | b1 :: rest' =>
            ((b - 0xC0) * 64 + (b1 - 0x80))%N :: utf8_decode rest'
        | _ => []
        end
      else if (b <? 0xF0)%N then
        match rest with
        | b1 :: b2 :: rest' =>
            ((b - 0xE0) * 4096 + (b1 - 0x80) * 64 + (b2 - 0x80))%N
              :: utf8_decode rest'
        | _ => []
        end
      else
        match rest with
        | b1 :: b2 :: b3 :: rest' =>
            ((b - 0xF0) * 262144 + (b1 - 0x80) * 4096 + (b2 - 0x80) * 64
             + (b3 - 0x80))%N :: utf8_decode rest'
        | _ => []
        end
  end.

Definition lit (s : string) : str :=
  utf8_decode (map N_of_ascii (list_ascii_of_string s)).


(** The code points for which [str.isspace] holds, which are the ones
    [str.strip()] removes. *)
Definition isspace (c : N) : bool :=
  ((0x09 <=? c) && (c <=? 0x0D) || (0x1C <=? c) && (c <=? 0x20)
   || (c =? 0x85) || (c =? 0xA0) || (c =? 0x1680)
   || (0x2000 <=? c) && (c <=? 0x200A)
   || (c =? 0x2028) || (c =? 0x2029) || (c =? 0x202F) || (c =? 0x205F)
   || (c =? 0x3000))%N.

Fixpoint lstrip (s : str) : str :=
  match s with
  | [] => []
  | c :: s' => if isspace c then lstrip s' else s
  end.

Definition rstrip (s : str) : str := rev (lstrip (rev s)).

(** [s.strip()] *)
Definition strip (s : str) : str := rstrip (lstrip s).

(** Truth value of a string: [if text:] *)
Definition truthy (s : str) : bool :=
  match s with [] => false | _ => true end.

(** [s.rfind(c)] for a one-character [c]: the highest index of [c] in [s],
    [None] for Python's -1. *)
Fixpoint rfind_from (c : N) (s : str) (i : nat) (found : option nat)
  : option nat :=
  match s with
  | [] => found
  | x :: s' => rfind_from c s' (S i) (if (x =? c)%N then Some i else found)
  end.

Definition rfind (c : N) (s : str) : option nat := rfind_from c s 0%nat None.

(** ** Python values held in a metadata dict *)

Inductive value :=
| None_
| Bool (b : bool)
| Int (n : Z)
| Str (s : str).

#[global] Instance value_eq_dec : EqDecision value.
Proof. solve_decision. Defined.

(** [str(v)], which is what an f-string field [{v}] renders. *)
Definition to_str (v : value) : str :=
  match v with
  | None_ => lit "None"
  | Bool true => lit "True"
  | Bool false => lit "False"
  | Int n => lit (pretty n)
  | Str s => s
  end.

(** [d.get(key)]: the value, or [None] when the key is absent. *)
Definition get (key : string) (d : gmap string value) : value :=
  default None_ (d !! key).

(** [d.setdefault(key, v)]: sets [d[key] = v] only when [key] is absent. *)
Definition setdefault (key : string) (v : value) (d : gmap string value)
  : gmap string value :=
  match d !! key with
  | Some _ => d
  | None => <[key := v]> d
  end.

(** [enumerate(l)] *)
Fixpoint enumerate_from {A} (start : nat) (l : list A) : list (nat * A) :=
  match l with
  | [] => []
  | x :: l' => (start, x) :: enumerate_from (S start) l'
  end.

Definition enumerate {A} (l : list A) : list (nat * A) := enumerate_from 0 l.

End Py.

Import Py.

(** ** pathlib *)

Module pathlib.

(** A path is modelled by its string form as pathlib keeps it: components
    separated by ["/"], none of them empty or ["."], no trailing ["/"]. *)
Definition slash : N := 47%N.
Definition dot : N := 46%N.

(** [a / b]: [b] itself when it is absolute. *)
Definition joinpath (a b : str) : str :=
  match b with
  | 47%N :: _ => b
  | _ => a ++ slash :: b
  end.

(** [p.name]: the final component. *)
Definition name (p : str) : str :=
  match rfind slash p with
  | Some i => drop (S i) p
  | None => p
  end.

(** [p.suffix]: [name[i:]] for [i = name.rfind(".")] when
    [0 < i < len(name) - 1], the empty string otherwise. *)
Definition suffix (p : str) : str :=
  let name := name p in
  match rfind dot name with
  | Some i =>
      if ((0 <? i) && (i <? length name - 1))%nat then drop i name else []
  | None => []
  end.

End pathlib.

(** ** Documents *)

(** [langchain_core.documents.Document] *)
Record Document := mkDocument {
  page_content : str;
  metadata : gmap string value
}.

#[global] Instance Document_eq_dec : EqDecision Document.
Proof. solve_decision. Defined.

(** ** The world outside the program *)

(** A page raster produced by pdf2image (a PIL image), opaque to the program. *)
Inductive Image := Raster (id : N).

(** A chat message: role and text. *)
Abbreviation Message := (str * str)%type.

(** Requests the program makes to its collaborators, in the order made. *)
Inductive Call :=
| Call_fitz_open (path : str)
| Call_convert_from_path (pdf_path : str) (dpi first_page last_page : Z)
| Call_image_to_string (image : Image) (lang : str)
| Call_split_documents (chunk_size chunk_overlap : Z)
    (documents : list Document)
| Call_rmtree (path : str)
| Call_Chroma (collection_name persist_directory : str)
| Call_add_documents (persist_directory : str) (documents : list Document)
    (ids : list N)
| Call_retriever (persist_directory : str) (query : str) (k : Z)
| Call_chat_model (messages : list Message).

(** The exceptions the program raises or lets through. *)
Inductive Exn :=
| ValueError (msg : str)
| FileNotFoundError (msg : str)
| IndexError.

Record World := mkWorld {
  (** existing plain directories *)
  w_dirs : gset str;
  (** existing PDF files: the native text of each page, in page order *)
  w_pdfs : gmap str (list str);
  (** persisted Chroma directories: the collection, keyed by document id *)
  w_chroma : gmap str (gmap N Document);
  (** the random source read by [uuid4] and by the chat model's sampling *)
  w_rand : N;
  (** the calls made so far, oldest first *)
  w_log : list Call
}.

Definition set_dirs (f : gset str → gset str) (w : World) : World :=
  mkWorld (f (w_dirs w)) (w_pdfs w) (w_chroma w) (w_rand w) (w_log w).
Definition set_chroma
    (f : gmap str (gmap N Document) → gmap str (gmap N Document)) (w : World)
  : World :=
  mkWorld (w_dirs w) (w_pdfs w) (f (w_chroma w)) (w_rand w) (w_log w).
Definition set_rand (f : N → N) (w : World) : World :=
  mkWorld (w_dirs w) (w_pdfs w) (w_chroma w) (f (w_rand w)) (w_log w).
Definition set_log (f : list Call → list Call) (w : World) : World :=
  mkWorld (w_dirs w) (w_pdfs w) (w_chroma w) (w_rand w) (f (w_log w)).

(** The collaborators, as the functions they compute. *)
Record Collaborators := {
  (** [pdf2image.convert_from_path(pdf_path, dpi, first_page, last_page)] *)
  pdf2image : str → Z → Z → Z → list Image;
  (** [pytesseract.image_to_string(image, lang)] *)
  tesseract : Image → str → str;
  (** [RecursiveCharacterTextSplitter(chunk_size, chunk_overlap)
        .split_documents(documents)]; the documents it returns are fresh
      objects, none shared with another *)
  text_splitter : Z → Z → list Document → list Document;
  (** the [k] documents of a collection nearest to a query under the
      embedding model *)
  similarity_search : gmap N Document → str → Z → list Document;
  (** the messages [create_stuff_documents_chain] renders from the prompt,
      the question and the retrieved documents *)
  stuff_prompt : list Message → str → list Document → list Message;
  (** the chat model's text for these messages, under a sampling seed *)
  chat_model : list Message → N → str
}.

(** ** Computations: state over the world, with exceptions *)

Definition M (A : Type) : Type := World → (Exn + A) * World.

#[global] Instance M_ret : MRet M := λ A x w, (inr x, w).

#[global] Instance M_bind : MBind M := λ A B f m w,
  match m w with
  | (inl e, w') => (inl e, w')
  | (inr x, w') => f x w'
  end.

Definition raise {A} (e : Exn) : M A := λ w, (inl e, w).
Definition gets {A} (f : World → A) : M A := λ w, (inr (f w), w).
Definition modify (f : World → World) : M unit := λ w, (inr tt, f w).
(** The world after further calls were made. *)
Definition log_calls (cs : list Call) (w : World) : World :=
  set_log (λ l, l ++ cs) w.
Definition call (c : Call) : M unit := modify (log_calls [c]).

(** What a computation leaves behind. *)
Definition result {A} (m : M A) (w : World) : Exn + A := fst (m w).
Definition world_after {A} (m : M A) (w : World) : World := snd (m w).
(** The calls a computation makes when started in [w]. *)
Definition calls_of {A} (m : M A) (w : World) : list Call :=
  drop (length (w_log w)) (w_log (world_after m w)).

(** ** Primitive operations on the world *)

(** [Path(p).exists()] for the path of an input file *)
Definition file_exists (p : str) : M bool :=
  gets (λ w, bool_decide (is_Some (w_pdfs w !! p))).

(** [fitz.open(p)]: the pages of the PDF; PyMuPDF raises when there is no
    such file. *)
Definition fitz_open (p : str) : M (list str) :=
  call (Call_fitz_open p);;
  pdf ← gets (λ w, w_pdfs w !! p);
  match pdf with
  | Some pages => mret pages
  | None => raise (FileNotFoundError (lit "no such file: " ++ p))
  end.

Definition convert_from_path (E : Collaborators)
    (pdf_path : str) (dpi first_page last_page : Z) : M (list Image) :=
  call (Call_convert_from_path pdf_path dpi first_page last_page);;
  mret (pdf2image E pdf_path dpi first_page last_page).

Definition image_to_string (E : Collaborators) (image : Image) (lang : str)
  : M str :=
  call (Call_image_to_string image lang);;
  mret (tesseract E image lang).

Definition split_documents (E : Collaborators)
    (chunk_size chunk_overlap : Z) (documents : list Document)
  : M (list Document) :=
  call (Call_split_documents chunk_size chunk_overlap documents);;
  mret (text_splitter E chunk_size chunk_overlap documents).

(** [uuid4()]: a value never handed out before. *)
Definition uuid4 : M N :=
  u ← gets w_rand;
  modify (set_rand N.succ);;
  mret u.

(** [shutil.rmtree(p)] of a persisted Chroma directory *)
Definition rmtree (p : str) : M unit :=
  call (Call_rmtree p);;
  modify (set_chroma (delete p)).

(** ** src/smart_pdf_loader.py *)

Module SmartPDFLoader.

Record t := mk {
  file_path : str;
  lang : str
}.

Section Methods.
Variable E : Collaborators.

Definition _ocr_page (self : t) (pdf_path : str) (page_num : Z)
  : M (option Document) :=
  images ← convert_from_path E pdf_path 300 page_num page_num;
  match images with
  | [] => mret None
  | image :: _ =>
      text ← image_to_string E image (lang self);
      let text := strip text in
      if negb (truthy text) then mret None
      else
        mret (Some (mkDocument text
                      {[ "source" := Str (pathlib.name pdf_path);
                         "page" := Int page_num;
                         "ocr" := Bool true ]}))
  end.

(** The body of [for page_index in range(num_pages)], over the indices
    still to visit. *)
Fixpoint load_pages (self : t) (pdf_path : str) (pdf : list str)
    (page_indices : list nat) (result_docs : list Document)
  : M (list Document) :=
  match page_indices with
  | [] => mret result_docs
  | page_index :: page_indices =>
      let page_num := Z.of_nat page_index + 1 in
      match pdf !! page_index with
      | None => raise IndexError
      | Some page =>
          let text := strip page in
          if truthy text then
            load_pages self pdf_path pdf page_indices
              (result_docs ++
                 [mkDocument text
                    {[ "source" := Str (pathlib.name pdf_path);
                       "page" := Int page_num;
                       "ocr" := Bool false ]}])
          else
            ocr_doc ← _ocr_page self pdf_path page_num;
            match ocr_doc with
            | Some ocr_doc =>
                load_pages self pdf_path pdf page_indices
                  (result_docs ++ [ocr_doc])
            | None => load_pages self pdf_path pdf page_indices result_docs
            end
      end
  end.

(** [load]; [pdf.close()] changes nothing the model keeps track of. *)
Definition load (self : t) : M (list Document) :=
  let pdf_path := file_path self in
  found ← file_exists pdf_path;
  if negb found then
    raise (FileNotFoundError (lit "File not found: " ++ file_path self))
  else
    pdf ← fitz_open (file_path self);
    let num_pages := length pdf in
    load_pages self pdf_path pdf (seq 0 num_pages) [].
End Methods.

End SmartPDFLoader.

(** ** langchain_chroma.Chroma, as far as the program uses it *)

Module Chroma.

Record t := mk {
  collection_name : str;
  persist_directory : str
}.

(** [Chroma(collection_name=..., persist_directory=...)]: opens the persisted
    collection, creating an empty one when the directory has none. *)
Definition new (collection_name persist_directory : str) : M t :=
  call (Call_Chroma collection_name persist_directory);;
  modify (set_chroma (λ c,
    match c !! persist_directory with
    | Some _ => c
    | None => <[persist_directory := ∅]> c
    end));;
  mret (mk collection_name persist_directory).

(** The collection a store object reads and writes. *)
Definition collection (self : t) (w : World) : gmap N Document :=
  default ∅ (w_chroma w !! persist_directory self).

(** Insertion of the documents under their ids, in order; an id already
    present is overwritten. *)
Fixpoint upsert (ids : list N) (documents : list Document)
    (c : gmap N Document) : gmap N Document :=
  match ids, documents with
  | i :: ids, d :: documents => upsert ids documents (<[i := d]> c)
  | _, _ => c
  end.

(** [store.add_documents(documents=..., ids=...)] *)
Definition add_documents (self : t) (documents : list Document)
    (ids : list N) : M unit :=
  call (Call_add_documents (persist_directory self) documents ids);;
  modify (λ w,
    set_chroma
      <[persist_directory self := upsert ids documents (collection self w)]> w).

End Chroma.

(** ** src/ingestion.py *)

Module Ingestor.

Record t := mk {
  chunk_size : Z;
  chunk_overlap : Z;
  data_folder : str;
  persist_directory : str;
  file_path : str;
  vector_store : Chroma.t
}.

(** [_instantiate_vector_store]: removes the persisted directory when it
    exists and opens the store anew; the store it returns becomes
    [self.vector_store]. *)
Definition _instantiate_vector_store (persist_directory : str) : M Chroma.t :=
  found ← gets (λ w, bool_decide (is_Some (w_chroma w !! persist_directory)));
  (if found : bool then rmtree persist_directory else mret tt);;
  Chroma.new (lit "documents") persist_directory.

(** [Ingestor(file_name, model, chunk_size, chunk_overlap)]; [root] is the
    directory [Path(__file__).parent.parent]. *)
Definition __init__ (root : str) (file_name : str)
    (chunk_size chunk_overlap : Z) : M t :=
  let data_folder := pathlib.joinpath root (lit "data") in
  let persist_directory :=
    pathlib.joinpath (pathlib.joinpath root (lit "db"))
      (lit "chroma_langchain_db") in
  let file_path := pathlib.joinpath data_folder file_name in
  found ← gets (λ w, bool_decide (data_folder ∈ w_dirs w));
  (if found : bool then mret tt
   else modify (set_dirs (λ d, {[data_folder]} ∪ d)));;
  vector_store ← _instantiate_vector_store persist_directory;
  mret (mk chunk_size chunk_overlap data_folder persist_directory file_path
          vector_store).

(** The body of the loop over [enumerate(documents)]: what it leaves in
    [doc]. *)
Definition tag_document (self : t) (idx : nat) (doc : Document) : Document :=
  let page := get "page" (metadata doc) in
  let md := setdefault "source" (Str (pathlib.name (file_path self)))
              (metadata doc) in
  let md := setdefault "ocr" (Bool false) md in
  let md := <["chunk_id" := Int (Z.of_nat idx)]> md in
  if decide (page = None_) then mkDocument (page_content doc) md
  else
    mkDocument
      (lit "[PAGINA " ++ to_str page ++ lit "]" ++ [10%N] ++ page_content doc)
      md.

(** [[str(uuid4()) for _ in range(n)]] *)
Fixpoint uuids (n : nat) : M (list N) :=
  match n with
  | O => mret []
  | S n => u ← uuid4; us ← uuids n; mret (u :: us)
  end.

Section Methods.
Variable E : Collaborators.

Definition ingest_file (self : t) : M unit :=
  if decide (pathlib.suffix (file_path self) ≠ lit ".pdf") then
    raise (ValueError (lit "The file must be a pdf."))
  else
    let loader := SmartPDFLoader.mk (file_path self) (lit "ita") in
    loaded_documents ← SmartPDFLoader.load E loader;
    documents ← split_documents E (chunk_size self) (chunk_overlap self)
                  loaded_documents;
    let documents :=
      map (λ '(idx, doc), tag_document self idx doc) (enumerate documents) in
    uuids ← uuids (length documents);
    Chroma.add_documents (vector_store self) documents uuids.
End Methods.

End Ingestor.

(** ** The console *)

(** [print(a, b, ...)]: what it writes, the arguments separated by a space and
    followed by a newline. *)
Fixpoint print (args : list str) : str :=
  match args with
  | [] => [10%N]
  | [a] => a ++ [10%N]
  | a :: args => a ++ 32%N :: print args
  end.

(** How a loop around [input()] ends: the user asked to leave, or the
    input was exhausted and [input()] raised [EOFError]. *)
Inductive ChatEnd := Quit | EOFError.

(** ** src/pdf_chat.py *)

Module PdfChat.

(** [vector_store.as_retriever(search_kwargs={"k": k})] *)
Record Retriever := as_retriever {
  store : Chroma.t;
  k : Z
}.

Record t := mk {
  ingestor : Ingestor.t;
  prompt_message : list Message;
  retriever : Retriever
}.

(** The prompt used when the caller gives none. Adjacent string literals of
    the source are joined without a separator. *)
Definition default_prompt_message : list Message :=
  [ (lit "system",
     concat
     [
       lit "Sei un assistente legale che risponde SEMPRE in italiano e basandoti";
       lit "ESCLUSIVAMENTE sul contesto fornito. Non assumere nulla che non sia";
       lit "presente nel contesto.";
       lit "Il documento è un contratto preliminare di compravendita di terreni ";
       lit "tra la “Parte Promittente Venditrice” e la “Parte Promittente Acquirente”.";
       lit "Il linguaggio legale può essere formale, ripetitivo o contenere varianti";
       lit "di termini simili. Considera correttamente sinonimi come:";
       lit "- firmato / sottoscritto";
       lit "- acquirente / parte promissaria acquirente";
       lit "- venditore / parte promittente venditrice";
       lit "- pagamento / corrispettivo / prezzo";
       lit "- mappale / particella catastale";
       lit "SE trovi la risposta:";
       lit "- estraila ESATTAMENTE dal contesto (mai inventare)";
       lit "- riassumila in modo chiaro";
       lit "- specifica in quale parte del contesto è stata trovata (citazione breve)";
       lit "- forniscimi la pagina del documento dove l'hai trovata";
       lit "SE la risposta NON è nel contesto:";
       lit "- dì chiaramente: “Nel contesto fornito non trovo questa informazione.”";
       lit "SE la domanda dell’utente è vaga, richiedi chiarimenti.";
       lit "Non usare conoscenze esterne. Non fare deduzioni, non completare parti mancanti." ]);
    (lit "human",
     concat
     [
       lit "Domanda dell’utente: {input}";
       lit "Contesto disponibile:";
       lit "{context}";
       lit "Rispondi basandoti SOLO sul contesto. Se utile, cita espressamente la parte";
       lit "del testo da cui hai ricavato la risposta." ]) ].

(** [_define_prompt]: [self.prompt_message] after it ran; a missing or empty
    prompt is replaced by the default one. *)
Definition _define_prompt (prompt_message : option (list Message))
  : list Message :=
  match prompt_message with
  | Some (m :: ms) => m :: ms
  | _ => default_prompt_message
  end.

(** [_define_retrieval_chain]: [self.retriever]; the chain built over it and
    the prompt is [retrieval_chain_invoke] below. *)
Definition _define_retrieval_chain (ingestor : Ingestor.t) : Retriever :=
  as_retriever (Ingestor.vector_store ingestor) 15.

(** [PdfChat(model, ingestor, prompt_message)] *)
Definition __init__ (ingestor : Ingestor.t)
    (prompt_message : option (list Message)) : t :=
  mk ingestor (_define_prompt prompt_message)
    (_define_retrieval_chain ingestor).

Section Methods.
Variable E : Collaborators.

(** [self.retriever.invoke(query)] *)
Definition retriever_invoke (r : Retriever) (query : str)
  : M (list Document) :=
  call (Call_retriever (Chroma.persist_directory (store r)) query (k r));;
  c ← gets (Chroma.collection (store r));
  mret (similarity_search E c query (k r)).

(** The chat model, called on rendered messages. *)
Definition chat_model_invoke (messages : list Message) : M str :=
  call (Call_chat_model messages);;
  seed ← gets w_rand;
  modify (set_rand N.succ);;
  mret (chat_model E messages seed).

(** [self.retrieval_chain.invoke({"input": query})["answer"]]: retrieve,
    render the prompt over the retrieved documents, generate. *)
Definition retrieval_chain_invoke (self : t) (input : str) : M str :=
  context ← retriever_invoke (retriever self) input;
  chat_model_invoke (stuff_prompt E (prompt_message self) input context).

Definition ask (self : t) (query : str) : M str :=
  answer ← retrieval_chain_invoke self query;
  mret answer.

(** Successive calls of [ask], as the HTTP endpoint makes them. *)
Fixpoint asks (self : t) (queries : list str) : M (list str) :=
  match queries with
  | [] => mret []
  | query :: queries =>
      answer ← ask self query;
      answers ← asks self queries;
      mret (answer :: answers)
  end.

(** [query.lower() == 'q']: [Q] is the only character other than [q] whose
    lower case is [q]. *)
Definition is_quit (query : str) : bool :=
  bool_decide (query = lit "q") || bool_decide (query = lit "Q").

(** What [chat] prints for the [i]-th retrieved chunk. *)
Definition chunk_report (i : nat) (d : Document) : list str :=
  let page := get "page" (metadata d) in
  [ print [10%N :: replicate 80 61%N];
    print [lit "📄 CHUNK #" ++ to_str (Int (Z.of_nat i))
             ++ lit "  (pagina: " ++ to_str page ++ lit ")"];
    print [replicate 80 61%N];
    print [take 1500 (page_content d)] ].

(** [chat]: the loop, over the lines [stdin] still holds and after the
    writes [stdout]. It returns how it ended, the lines left unread and
    everything written. *)
Fixpoint chat (self : t) (stdin : list str) (stdout : list str)
  : M (ChatEnd * list str * list str) :=
  let stdout := stdout ++ [lit "Start the chat! 
To quit, type 'q': "] in
  match stdin with
  | [] => mret (EOFError, [], stdout)
  | query :: stdin =>
      if is_quit query then mret (Quit, stdin, stdout)
      else
        let stdout :=
          stdout ++ [print [lit "
RICERCA DEI CHUNK RILEVANTI...
"]] in
        docs ← retriever_invoke (retriever self) query;
        let stdout :=
          stdout ++
          flat_map (λ '(i, d), chunk_report i d) (enumerate_from 1 docs) in
        let stdout :=
          stdout ++ [print [lit "
GENERAZIONE RISPOSTA...
"]] in
        answer ← retrieval_chain_invoke self query;
        let stdout :=
          stdout ++
          [ print [lit "Domanda fatta:"; query];
            print [lit "Assistant: "; answer; [10%N; 10%N]] ] in
        chat self stdin stdout
  end.
End Methods.

End PdfChat.

(** ** The page extractor and the chunk tagging, as the specification words
    them *)

Module Spec.

(** A [PageDocument] of the specification, as the [Document] carrying it. *)
Definition PageDocument (text : str) (page_number : Z)
    (source_filename : str) (is_ocr : bool) : Document :=
  mkDocument text
    {[ "source" := Str source_filename;
       "page" := Int page_number;
       "ocr" := Bool is_ocr ]}.

Section Extractor.
Variable E : Collaborators.
Variables pdf_path lang : str.

(** What optical character recognition reads on page [n] alone: the text
    recognised on the raster of that page, nothing when there is no
    raster. *)
Definition ocr_output (n : Z) : str :=
  match pdf2image E pdf_path 300 n n with
  | [] => []
  | image :: _ => tesseract E image lang
  end.

(** The requests recognition of page [n] makes. *)
Definition ocr_calls (n : Z) : list Call :=
  Call_convert_from_path pdf_path 300 n n ::
  match pdf2image E pdf_path 300 n n with
  | [] => []
  | image :: _ => [Call_image_to_string image lang]
  end.

(** The documents emitted for the page with 0-based index [i] and native
    text [native]. *)
Definition page_documents (i : nat) (native : str) : list Document :=
  let n := Z.of_nat i + 1 in
  if truthy (strip native) then
    [PageDocument (strip native) n (pathlib.name pdf_path) false]
  else if truthy (strip (ocr_output n)) then
    [PageDocument (strip (ocr_output n)) n (pathlib.name pdf_path) true]
  else [].

(** The recognition requests made for that page. *)
Definition page_calls (i : nat) (native : str) : list Call :=
  if truthy (strip native) then [] else ocr_calls (Z.of_nat i + 1).

Definition extract (pages : list str) : list Document :=
  concat (imap page_documents pages).

Definition extract_calls (pages : list str) : list Call :=
  concat (imap page_calls pages).
End Extractor.

(** The page marker of the specification and the one of the program. *)
Definition page_marker (word : string) (page : value) : str :=
  lit "[" ++ lit word ++ lit " " ++ to_str page ++ lit "]" ++ [10%N].

End Spec.

(** ** What one ingestion adds to the store *)

Section Ingestion.
Variable E : Collaborators.
Variable self : Ingestor.t.

(** The pages [ingest_file] loads from a PDF with these native texts. *)
Definition loaded_documents (pages : list str) : list Document :=
  Spec.extract E (Ingestor.file_path self) (lit "ita") pages.

(** The chunks the splitter returns for them. *)
Definition split_chunks (pages : list str) : list Document :=
  text_splitter E (Ingestor.chunk_size self) (Ingestor.chunk_overlap self)
    (loaded_documents pages).

(** The chunks as [ingest_file] hands them to the vector store. *)
Definition emitted_chunks (pages : list str) : list Document :=
  map (λ '(idx, doc), Ingestor.tag_document self idx doc)
    (enumerate (split_chunks pages)).
End Ingestion.

(** The ids [n] successive calls of [uuid4] return from the source value [r]. *)
Fixpoint fresh_ids (r : N) (n : nat) : list N :=
  match n with
  | O => []
  | S n => r :: fresh_ids (N.succ r) n
  end.

(** The documents handed to the vector store by the calls [cs]. *)
Definition added_documents (cs : list Call) : list Document :=
  flat_map (λ c, match c with
                 | Call_add_documents _ documents _ => documents
                 | _ => []
                 end) cs.

(** The world one successful [ingest_file] leaves, for a PDF with the native
    page texts [pages]. *)
Definition ingested (E : Collaborators) (self : Ingestor.t)
    (pages : list str) (w : World) : World :=
  let store := Ingestor.vector_store self in
  let chunks := emitted_chunks E self pages in
  let ids := fresh_ids (w_rand w) (length chunks) in
  {| w_dirs := w_dirs w;
     w_pdfs := w_pdfs w;
     w_chroma :=
       <[Chroma.persist_directory store :=
           Chroma.upsert ids chunks (Chroma.collection store w)]> (w_chroma w);
     w_rand := (w_rand w + N.of_nat (length chunks))%N;
     w_log :=
       w_log w ++
       Call_fitz_open (Ingestor.file_path self)
         :: Spec.extract_calls E (Ingestor.file_path self) (lit "ita") pages
         ++ [ Call_split_documents (Ingestor.chunk_size self)
                (Ingestor.chunk_overlap self) (loaded_documents E self pages);
              Call_add_documents (Chroma.persist_directory store) chunks ids ]
  |}.

(** A text as [strip] leaves it when something is left. *)
Definition stripped_nonempty (s : str) : Prop :=
  s ≠ []
  ∧ (∀ c, head s = Some c → isspace c = false)
  ∧ (∀ c, last s = Some c → isspace c = false).

(** The marker a chunk with this ["page"] value is given: none without a
    page. *)
Definition page_tag (word : string) (page : value) : str :=
  if decide (page = None_) then [] else Spec.page_marker word page.

(** [d] is [chunk] with its page marker in front. *)
Definition tagged_with (word : string) (chunk d : Document) : Prop :=
  page_content d =
  page_tag word (get "page" (metadata chunk)) ++ page_content chunk.


(** ** main.py and rag_server.py: one ingestion run *)


(** ** rag_server.py *)

Module rag_server.

Record ChatRequest := mkChatRequest { question : str }.
Record ChatResponse := mkChatResponse { answer : str }.

Definition file_name : str :=
  lit "20250819_Alessandri Domenico_Preliminare compravendita+diritti con allegati_signed.pdf".

(** The statements run when the module is loaded, up to
    [chat = PdfChat(...)]; the two progress messages they print are left
    out. *)
Definition chat (E : Collaborators) (root : str) : M PdfChat.t :=
  ingestion ← Ingestor.__init__ root file_name 800 150;
  Ingestor.ingest_file E ingestion;;
  mret (PdfChat.__init__ ingestion None).

(** [chat_endpoint(req)], over the module's [chat] object. *)
Definition chat_endpoint (E : Collaborators) (chat : PdfChat.t)
    (req : ChatRequest) : M ChatResponse :=
  answer ← PdfChat.ask E chat (question req);
  mret (mkChatResponse answer).

End rag_server.

(** ** main.py *)

Module main.

Definition file_name : str :=
  lit "20250819_Alessandri Domenico_Preliminare compravendita+diritti con allegati_signed.pdf".


End main.

(** ** Notions used to state further properties *)

(** The page number a document carries, 0 when it carries none. *)
Definition doc_page (d : Document) : Z :=
  match get "page" (metadata d) with
  | Int n => n
  | _ => 0
  end.

Definition is_retrieval (c : Call) : bool :=
  match c with Call_retriever _ _ _ => true | _ => false end.
Definition is_generation (c : Call) : bool :=
  match c with Call_chat_model _ => true | _ => false end.


(** Every id in a persisted collection was handed out by the random source
    before. *)
Definition ids_below (w : World) : Prop :=
  ∀ dir c i, w_chroma w !! dir = Some c → is_Some (c !! i) → (i < w_rand w)%N.

(** The messages the chat model receives for [query] when the collection
    holds [c]. *)
Definition chat_messages (E : Collaborators) (self : PdfChat.t)
    (c : gmap N Document) (query : str) : list Message :=
  stuff_prompt E (PdfChat.prompt_message self) query
    (similarity_search E c query (PdfChat.k (PdfChat.retriever self))).

(** The requests one call of [ask] makes over the collection [c]. *)
Definition ask_calls_over (E : Collaborators) (self : PdfChat.t)
    (c : gmap N Document) (query : str) : list Call :=
  [ Call_retriever
      (Chroma.persist_directory (PdfChat.store (PdfChat.retriever self)))
      query (PdfChat.k (PdfChat.retriever self));
    Call_chat_model (chat_messages E self c query) ].

(** The requests one turn of [chat] makes over the collection [c]. *)
Definition turn_calls_over (E : Collaborators) (self : PdfChat.t)
    (c : gmap N Document) (query : str) : list Call :=
  Call_retriever
    (Chroma.persist_directory (PdfChat.store (PdfChat.retriever self)))
    query (PdfChat.k (PdfChat.retriever self))
  :: ask_calls_over E self c query.

(** The lines of the console input that are questions: those before the
    first that asks to leave. *)
Fixpoint questions (stdin : list str) : list str :=
  match stdin with
  | [] => []
  | query :: stdin =>
      if PdfChat.is_quit query then [] else query :: questions stdin
  end.

(** How the loop ends on this input, and the lines it leaves unread. *)
Fixpoint chat_end (stdin : list str) : ChatEnd * list str :=
  match stdin with
  | [] => (EOFError, [])
  | query :: stdin =>
      if PdfChat.is_quit query then (Quit, stdin) else chat_end stdin
  end.

(** ** Concrete collaborators and worlds, for running the model *)

Module Example.

(** A splitter that cuts windows of [size] characters, each starting [step]
    characters after the previous one. On a text of at most [size]
    characters it returns the text as the only chunk. *)
Fixpoint windows (fuel size step : nat) (text : str) : list str :=
  match fuel with
  | O => []
  | S fuel =>
      match text with
      | [] => []
      | _ =>
          if (length text <=? size)%nat then [text]
          else take size text :: windows fuel size step (drop step text)
      end
  end.

Definition window_split_text (chunk_size chunk_overlap : Z) (text : str)
  : list str :=
  if (0 <=? chunk_overlap) && (chunk_overlap <? chunk_size) then
    windows (length text) (Z.to_nat chunk_size)
      (Z.to_nat (chunk_size - chunk_overlap)) text
  else [].

(** Each chunk carries a copy of the metadata of the document it is cut
    from. *)
Definition window_split_documents (chunk_size chunk_overlap : Z)
    (documents : list Document) : list Document :=
  flat_map
    (λ doc, map (λ chunk, mkDocument chunk (metadata doc))
              (window_split_text chunk_size chunk_overlap (page_content doc)))
    documents.

(** Rasterisation yields one raster per requested page; recognition reads
    a signature on page 2 and nothing elsewhere. *)
Definition collaborators : Collaborators := {|
  pdf2image := λ _ _ first_page last_page,
    map (λ i, Raster (Z.to_N (first_page + Z.of_nat i)))
      (seq 0 (Z.to_nat (last_page - first_page + 1)));
  tesseract := λ image _,
    match image with
    | Raster 2 => lit " Firma: Rossi
"
    | _ => lit "  "
    end;
  text_splitter := window_split_documents;
  similarity_search := λ c _ k, take (Z.to_nat k) (map snd (map_to_list c));
  stuff_prompt := λ prompt input context,
    map (λ '(role, text),
           (role, text ++ input ++ concat (map page_content context))) prompt;
  chat_model := λ _ _, lit "Nel contesto fornito non trovo questa informazione."
|}.

Definition root : str := lit "/app".
Definition atto_pdf : str := lit "/app/data/atto.pdf".
Definition db : str := lit "/app/db/chroma_langchain_db".

(** A four-page PDF: native text, a scan with a signature, a blank scan,
    native text. *)
Definition atto_pages : list str :=
  [ lit "  Contratto preliminare
"; lit "   "; []; lit "Art. 1" ].

Definition world : World := {|
  w_dirs := {[ lit "/app/data" ]};
  w_pdfs := {[ atto_pdf := atto_pages ]};
  w_chroma := ∅;
  w_rand := 7;
  w_log := []
|}.

(** A one-page PDF of four characters. *)
Definition nota_pdf : str := lit "/app/data/nota.pdf".
Definition nota_world : World := {|
  w_dirs := {[ lit "/app/data" ]};
  w_pdfs := {[ nota_pdf := [lit "aaaa"] ]};
  w_chroma := ∅;
  w_rand := 0;
  w_log := []
|}.

Definition loader : SmartPDFLoader.t := SmartPDFLoader.mk atto_pdf (lit "ita").

Definition store : Chroma.t := Chroma.mk (lit "documents") db.

(** The ingestor [Ingestor("nota.pdf", model, 4, 0)] builds, and the world
    it leaves. *)
Definition nota_ingestor : Ingestor.t :=
  Ingestor.mk 4 0 (lit "/app/data") db nota_pdf store.
Definition nota_ready : World :=
  world_after (Ingestor.__init__ root (lit "nota.pdf") 4 0) nota_world.
(** The world after [ingest_file] ran once, and after it ran a second time
    on the same ingestor. *)
Definition nota_once : World :=
  world_after (Ingestor.ingest_file collaborators nota_ingestor) nota_ready.
Definition nota_twice : World :=
  world_after (Ingestor.ingest_file collaborators nota_ingestor) nota_once.

(** The document the vector store receives for the one chunk of that PDF. *)
Definition nota_stored : Document :=
  mkDocument (lit "[PAGINA 1]
aaaa")
    {[ "source" := Str (lit "nota.pdf"); "page" := Int 1;
       "ocr" := Bool false; "chunk_id" := Int 0 ]}.

(** The same PDF stored under an upper-case extension. *)
Definition upper_pdf : str := lit "/app/data/atto.PDF".
Definition upper_world : World := {|
  w_dirs := {[ lit "/app/data" ]};
  w_pdfs := {[ upper_pdf := atto_pages ]};
  w_chroma := {[ db := ∅ ]};
  w_rand := 0;
  w_log := []
|}.
Definition upper_ingestor : Ingestor.t :=
  Ingestor.mk 800 150 (lit "/app/data") db upper_pdf store.

(** An ingestor for a text file. *)
Definition txt_ingestor : Ingestor.t :=
  Ingestor.mk 800 150 (lit "/app/data") db (lit "/app/data/appunti.txt") store.

(** An ingestor for the four-page PDF and a chat over it. *)
Definition atto_ingestor : Ingestor.t :=
  Ingestor.mk 800 150 (lit "/app/data") db atto_pdf store.
Definition atto_chat : PdfChat.t := PdfChat.__init__ atto_ingestor None.

(** A world in which the PDF named in main.py and rag_server.py is in the
    data folder, and an index from an earlier run is persisted. *)
Definition contratto_pdf : str :=
  pathlib.joinpath (pathlib.joinpath root (lit "data")) rag_server.file_name.
Definition server_world : World := {|
  w_dirs := {[ lit "/app/data" ]};
  w_pdfs := {[ contratto_pdf := atto_pages ]};
  w_chroma := {[ db := {[ 3%N := nota_stored ]} ]};
  w_rand := 7;
  w_log := []
|}.
Definition server_ingestor : Ingestor.t :=
  Ingestor.mk 800 150 (lit "/app/data") db contratto_pdf store.
Definition server_chat : PdfChat.t := PdfChat.__init__ server_ingestor None.

End Example.

(** * Properties *)

(** ** The Python layer on examples *)

Example lit_ascii : lit "[PAGINA " = [91; 80; 65; 71; 73; 78; 65; 32]%N.
Proof. reflexivity. Qed.

Example lit_non_ascii : lit "dì è" = [100; 236; 32; 232]%N.
Proof. reflexivity. Qed.

Example to_str_int : to_str (Int 12) = lit "12".
Proof. reflexivity. Qed.

Example strip_example : strip (lit "  a b
 ") = lit "a b".
Proof. reflexivity. Qed.

Example suffix_pdf : pathlib.suffix (lit "/app/data/atto.v2.pdf") = lit ".pdf".
Proof. reflexivity. Qed.

Example suffix_upper : pathlib.suffix (lit "/app/data/atto.PDF") = lit ".PDF".
Proof. reflexivity. Qed.

Example suffix_hidden : pathlib.suffix (lit "/app/data/.pdf") = [].
Proof. reflexivity. Qed.

Example default_prompt_asks_for_the_page :
  length (PdfChat._define_prompt None) = 2%nat
  ∧ PdfChat._define_prompt (Some []) = PdfChat.default_prompt_message.
Proof. split; reflexivity. Qed.

Opaque lit.
Arguments strip : simpl never.
Arguments pathlib.name : simpl never.
Arguments pathlib.suffix : simpl never.
Arguments to_str : simpl never.

(** ** The monad and the log *)

Ltac unfold_M :=
  unfold mbind, M_bind, mret, M_ret, call, modify, gets, raise in *.

Lemma log_calls_nil w : log_calls [] w = w.
Proof. destruct w; unfold log_calls, set_log; simpl. by rewrite app_nil_r. Qed.

Lemma log_calls_app cs cs' w :
  log_calls cs' (log_calls cs w) = log_calls (cs ++ cs') w.
Proof. destruct w; unfold log_calls, set_log; simpl. by rewrite app_assoc. Qed.

Lemma calls_of_log_calls {A} (m : M A) w cs :
  world_after m w = log_calls cs w → calls_of m w = cs.
Proof.
  intros Hw. unfold calls_of. rewrite Hw. destruct w; simpl.
  by rewrite drop_app_length.
Qed.

(** ** [str.strip] *)

Lemma lstrip_suffix s : ∃ p, s = p ++ lstrip s.
Proof.
  induction s as [|c s [p IH]]; [by exists [] |].
  simpl. destruct (isspace c).
  - exists (c :: p). simpl. by f_equal.
  - by exists [].
Qed.

Lemma lstrip_head s c : head (lstrip s) = Some c → isspace c = false.
Proof.
  induction s as [|x s IH]; simpl; [done |].
  destruct (isspace x) eqn:Hx; [done |]. simpl. congruence.
Qed.

Lemma strip_prefix s : ∃ q, lstrip s = strip s ++ q.
Proof.
  unfold strip, rstrip.
  destruct (lstrip_suffix (rev (lstrip s))) as [p Hp].
  exists (rev p). rewrite <- rev_app_distr, <- Hp. by rewrite rev_involutive.
Qed.

Lemma strip_head s c : head (strip s) = Some c → isspace c = false.
Proof.
  intros Hc. destruct (strip_prefix s) as [q Hq].
  apply (lstrip_head s). rewrite Hq.
  destruct (strip s); simpl in *; [done | congruence].
Qed.

Lemma strip_last s c : last (strip s) = Some c → isspace c = false.
Proof.
  unfold strip, rstrip. intros Hc.
  apply (lstrip_head (rev (lstrip s))).
  rewrite <- Hc. generalize (lstrip (rev (lstrip s))) as l.
  intros l. destruct l as [|x l]; [done |].
  simpl. by rewrite last_snoc.
Qed.

(** ** [SmartPDFLoader] *)

Section Loader.
Variable E : Collaborators.
Variable self : SmartPDFLoader.t.

Let pdf_path := SmartPDFLoader.file_path self.
Let lang := SmartPDFLoader.lang self.

Lemma ocr_page_run n w :
  SmartPDFLoader._ocr_page E self pdf_path n w =
  (inr (if truthy (strip (Spec.ocr_output E pdf_path lang n)) then
          Some (Spec.PageDocument (strip (Spec.ocr_output E pdf_path lang n))
                  n (pathlib.name pdf_path) true)
        else None),
   log_calls (Spec.ocr_calls E pdf_path lang n) w).
Proof.
  unfold SmartPDFLoader._ocr_page, convert_from_path, image_to_string,
    Spec.ocr_output, Spec.ocr_calls.
  unfold_M. simpl.
  destruct (pdf2image E pdf_path 300 n n) as [|image images]; [done |].
  simpl. rewrite log_calls_app. fold lang.
  by destruct (truthy (strip (tesseract E image lang))).
Qed.

(** The loop, from any page on: the pages before [sfx] are done. *)
Lemma load_pages_run sfx : ∀ pfx result_docs w,
  SmartPDFLoader.load_pages E self pdf_path (pfx ++ sfx)
    (seq (length pfx) (length sfx)) result_docs w =
  (inr (result_docs ++
        concat (imap (λ i, Spec.page_documents E pdf_path lang
                             (length pfx + i)) sfx)),
   log_calls
     (concat (imap (λ i, Spec.page_calls E pdf_path lang (length pfx + i))
                sfx)) w).
Proof.
  induction sfx as [|page sfx IH]; intros pfx result_docs w.
  - simpl. unfold_M. by rewrite app_nil_r, log_calls_nil.
  - cbn [length seq SmartPDFLoader.load_pages imap concat].
    rewrite list_lookup_middle by done.
    assert (Hpfx : pfx ++ page :: sfx = (pfx ++ [page]) ++ sfx)
      by by rewrite <- app_assoc.
    assert (Hlen : S (length pfx) = length (pfx ++ [page]))
      by (rewrite length_app; simpl; lia).
    assert (Hdocs : ∀ (f : nat → str → list Document),
      imap ((λ i, f (length pfx + i)%nat) ∘ S) sfx =
      imap (λ i, f (length (pfx ++ [page]) + i)%nat) sfx).
    { intros f. apply imap_ext. intros i x _. simpl. f_equal.
      rewrite length_app. simpl. lia. }
    assert (Hcalls : ∀ (f : nat → str → list Call),
      imap ((λ i, f (length pfx + i)%nat) ∘ S) sfx =
      imap (λ i, f (length (pfx ++ [page]) + i)%nat) sfx).
    { intros f. apply imap_ext. intros i x _. simpl. f_equal.
      rewrite length_app. simpl. lia. }
    rewrite (Hdocs (Spec.page_documents E pdf_path lang)).
    rewrite (Hcalls (Spec.page_calls E pdf_path lang)).
    unfold Spec.page_documents at 1, Spec.page_calls at 1.
    rewrite Nat.add_0_r.
    destruct (truthy (strip page)) eqn:Hnative.
    + rewrite Hpfx, Hlen, IH. by rewrite <- app_assoc.
    + unfold mbind, M_bind. rewrite ocr_page_run.
      destruct (truthy (strip (Spec.ocr_output E pdf_path lang
                                 (Z.of_nat (length pfx) + 1)))).
      * rewrite Hpfx, Hlen, IH, log_calls_app. by rewrite <- app_assoc.
      * rewrite Hpfx, Hlen, IH, log_calls_app. done.
Qed.

(** [load] on an existing PDF. *)
Lemma load_found w pages :
  w_pdfs w !! pdf_path = Some pages →
  SmartPDFLoader.load E self w =
  (inr (Spec.extract E pdf_path lang pages),
   log_calls (Call_fitz_open pdf_path
                :: Spec.extract_calls E pdf_path lang pages) w).
Proof.
  intros Hpdf. unfold SmartPDFLoader.load, file_exists, fitz_open.
  unfold_M. fold pdf_path. rewrite bool_decide_eq_true_2 by eauto.
  simpl. rewrite Hpdf.
  rewrite (load_pages_run pages [] [] (log_calls _ w)).
  rewrite log_calls_app. done.
Qed.

(** [load] on a path with no file. *)
Lemma load_missing w :
  w_pdfs w !! pdf_path = None →
  SmartPDFLoader.load E self w =
  (inl (FileNotFoundError (lit "File not found: " ++ pdf_path)), w).
Proof.
  intros Hpdf. unfold SmartPDFLoader.load, file_exists.
  unfold_M. fold pdf_path. rewrite Hpdf.
  rewrite bool_decide_eq_false_2; [done |]. by intros [? ?].
Qed.
End Loader.

(** C4. [load] visits the pages of the PDF in document order, numbering them
    from 1. A page whose native text is non-empty once stripped yields
    exactly one document with [ocr = False] carrying the stripped text, and
    no recognition request is made for it. For any other page recognition is
    requested for that page alone ([first_page = last_page = n]), and one
    document with [ocr = True] is emitted when the stripped recognised text
    is non-empty, none when it is empty. The documents returned are those of
    the pages, in order, and the requests logged are the opening of the file
    followed by those of the pages, in order. *)
Theorem load_page_by_page E (self : SmartPDFLoader.t) w pages :
  w_pdfs w !! SmartPDFLoader.file_path self = Some pages →
  result (SmartPDFLoader.load E self) w =
    inr (concat
           (imap (Spec.page_documents E (SmartPDFLoader.file_path self)
                    (SmartPDFLoader.lang self)) pages))
  ∧ calls_of (SmartPDFLoader.load E self) w =
    Call_fitz_open (SmartPDFLoader.file_path self)
      :: concat
           (imap (Spec.page_calls E (SmartPDFLoader.file_path self)
                    (SmartPDFLoader.lang self)) pages).
Proof.
  intros Hpdf. pose proof (load_found E self w pages Hpdf) as Hrun.
  split.
  - unfold result. by rewrite Hrun.
  - apply calls_of_log_calls. unfold world_after. by rewrite Hrun.
Qed.

Lemma load_page_by_page_witness :
  result (SmartPDFLoader.load Example.collaborators Example.loader)
    Example.world =
    inr [ Spec.PageDocument (lit "Contratto preliminare") 1 (lit "atto.pdf")
            false;
          Spec.PageDocument (lit "Firma: Rossi") 2 (lit "atto.pdf") true;
          Spec.PageDocument (lit "Art. 1") 4 (lit "atto.pdf") false ]
  ∧ calls_of (SmartPDFLoader.load Example.collaborators Example.loader)
      Example.world =
    [ Call_fitz_open Example.atto_pdf;
      Call_convert_from_path Example.atto_pdf 300 2 2;
      Call_image_to_string (Raster 2) (lit "ita");
      Call_convert_from_path Example.atto_pdf 300 3 3;
      Call_image_to_string (Raster 3) (lit "ita") ].
Proof.
  apply (load_page_by_page Example.collaborators Example.loader Example.world
           Example.atto_pages).
  vm_compute. reflexivity.
Defined.




Lemma strip_truthy_stripped s :
  truthy (strip s) = true → stripped_nonempty (strip s).
Proof.
  intros Ht. split; [| split].
  - by destruct (strip s).
  - apply strip_head.
  - apply strip_last.
Qed.

Lemma page_documents_stripped E pdf_path lang i native d :
  d ∈ Spec.page_documents E pdf_path lang i native →
  stripped_nonempty (page_content d).
Proof.
  unfold Spec.page_documents.
  destruct (truthy (strip native)) eqn:Hnative.
  - intros ->%list_elem_of_singleton. by apply strip_truthy_stripped.
  - destruct (truthy (strip (Spec.ocr_output _ _ _ _))) eqn:Hocr.
    + intros ->%list_elem_of_singleton. by apply strip_truthy_stripped.
    + by intros ?%elem_of_nil.
Qed.

(** C9. Every document [load] returns has a non-empty text that neither
    starts nor ends with a whitespace character. *)
Theorem load_texts_stripped E (self : SmartPDFLoader.t) w docs w' :
  SmartPDFLoader.load E self w = (inr docs, w') →
  ∀ d, d ∈ docs →
    page_content d ≠ []
    ∧ (∀ c, head (page_content d) = Some c → isspace c = false)
    ∧ (∀ c, last (page_content d) = Some c → isspace c = false).
Proof.
  intros Hload d Hd.
  destruct (w_pdfs w !! SmartPDFLoader.file_path self) as [pages|] eqn:Hpdf.
  - rewrite (load_found E self w pages Hpdf) in Hload.
    injection Hload as <- _.
    apply list_elem_of_In, in_concat in Hd as (l & Hl & Hd).
    apply list_elem_of_In, elem_of_lookup_imap in Hl as (i & native & -> & _).
    apply list_elem_of_In in Hd.
    by apply page_documents_stripped in Hd.
  - by rewrite (load_missing E self w Hpdf) in Hload.
Qed.

Lemma load_texts_stripped_witness :
  page_content (Spec.PageDocument (lit "Firma: Rossi") 2 (lit "atto.pdf") true)
    ≠ []
  ∧ (∀ c, head (lit "Firma: Rossi") = Some c → isspace c = false)
  ∧ (∀ c, last (lit "Firma: Rossi") = Some c → isspace c = false).
Proof.
  apply (load_texts_stripped Example.collaborators Example.loader
           Example.world
           (Spec.extract Example.collaborators Example.atto_pdf (lit "ita")
              Example.atto_pages)
           (log_calls
              (Call_fitz_open Example.atto_pdf
                 :: Spec.extract_calls Example.collaborators Example.atto_pdf
                      (lit "ita") Example.atto_pages) Example.world)).
  - vm_compute. reflexivity.
  - vm_compute. apply list_elem_of_In. simpl. right. left. reflexivity.
Defined.

(** ** [Ingestor] *)



Lemma uuids_run n : ∀ w,
  Ingestor.uuids n w =
  (inr (fresh_ids (w_rand w) n),
   set_rand (λ r, r + N.of_nat n)%N w).
Proof.
  induction n as [|n IH]; intros w.
  - simpl. unfold_M. destruct w; unfold set_rand; simpl.
    by rewrite N.add_0_r.
  - cbn [Ingestor.uuids fresh_ids]. unfold uuid4. unfold_M.
    rewrite IH. destruct w; unfold set_rand; simpl.
    do 2 f_equal. lia.
Qed.

Section IngestFile.
Variable E : Collaborators.
Variable self : Ingestor.t.

Lemma ingest_file_not_pdf w :
  pathlib.suffix (Ingestor.file_path self) ≠ lit ".pdf" →
  Ingestor.ingest_file E self w =
  (inl (ValueError (lit "The file must be a pdf.")), w).
Proof.
  intros Hsuffix. unfold Ingestor.ingest_file.
  by destruct (decide (pathlib.suffix (Ingestor.file_path self)
                         ≠ lit ".pdf")).
Qed.

Lemma ingest_file_missing w :
  pathlib.suffix (Ingestor.file_path self) = lit ".pdf" →
  w_pdfs w !! Ingestor.file_path self = None →
  Ingestor.ingest_file E self w =
  (inl (FileNotFoundError
          (lit "File not found: " ++ Ingestor.file_path self)), w).
Proof.
  intros Hsuffix Hpdf. unfold Ingestor.ingest_file.
  destruct (decide (pathlib.suffix (Ingestor.file_path self)
                      ≠ lit ".pdf")); [done |].
  unfold mbind, M_bind.
  by rewrite (load_missing E (SmartPDFLoader.mk _ _) w Hpdf).
Qed.

Lemma ingest_file_run w pages :
  pathlib.suffix (Ingestor.file_path self) = lit ".pdf" →
  w_pdfs w !! Ingestor.file_path self = Some pages →
  Ingestor.ingest_file E self w = (inr tt, ingested E self pages w).
Proof.
  intros Hsuffix Hpdf. unfold Ingestor.ingest_file.
  destruct (decide (pathlib.suffix (Ingestor.file_path self)
                      ≠ lit ".pdf")); [done |].
  unfold mbind at 1, M_bind at 1.
  rewrite (load_found E (SmartPDFLoader.mk _ _) w pages Hpdf).
  cbn [SmartPDFLoader.file_path SmartPDFLoader.lang].
  unfold split_documents, Chroma.add_documents. unfold_M.
  cbn match. rewrite uuids_run. cbn match.
  unfold ingested, emitted_chunks, split_chunks, loaded_documents.
  unfold Chroma.collection.
  destruct w; unfold log_calls, set_log, set_rand, set_chroma; simpl.
  do 2 f_equal. rewrite <- !app_assoc. simpl. by rewrite <- ?app_assoc.
Qed.

(** A successful [ingest_file] ran on a [.pdf] path with a file behind it. *)
Lemma ingest_file_ok_inv w w' :
  Ingestor.ingest_file E self w = (inr tt, w') →
  ∃ pages,
    pathlib.suffix (Ingestor.file_path self) = lit ".pdf"
    ∧ w_pdfs w !! Ingestor.file_path self = Some pages
    ∧ w' = ingested E self pages w.
Proof.
  intros Hrun.
  destruct (decide (pathlib.suffix (Ingestor.file_path self) = lit ".pdf"))
    as [Hsuffix|Hsuffix].
  - destruct (w_pdfs w !! Ingestor.file_path self) as [pages|] eqn:Hpdf.
    + exists pages. rewrite (ingest_file_run w pages) in Hrun by done.
      by injection Hrun as <-.
    + by rewrite ingest_file_missing in Hrun.
  - by rewrite ingest_file_not_pdf in Hrun.
Qed.

End IngestFile.

Lemma added_documents_app cs cs' :
  added_documents (cs ++ cs') = added_documents cs ++ added_documents cs'.
Proof. unfold added_documents. by rewrite flat_map_app. Qed.

Lemma added_documents_concat_imap {A} (pages : list A) :
  ∀ f : nat → A → list Call,
    (∀ i x, added_documents (f i x) = []) →
    added_documents (concat (imap f pages)) = [].
Proof.
  induction pages as [|page pages IH]; intros f Hf; [done |].
  cbn [imap concat]. rewrite added_documents_app, Hf. simpl.
  apply IH. intros i x. apply Hf.
Qed.

Lemma added_documents_extract_calls E pdf_path lang pages :
  added_documents (Spec.extract_calls E pdf_path lang pages) = [].
Proof.
  apply added_documents_concat_imap. intros i native.
  unfold Spec.page_calls, Spec.ocr_calls.
  destruct (truthy (strip native)); [done |].
  by destruct (pdf2image E pdf_path 300 _ _).
Qed.

(** The documents a successful [ingest_file] hands to the vector store. *)
Lemma added_documents_ingest_file E self w pages :
  pathlib.suffix (Ingestor.file_path self) = lit ".pdf" →
  w_pdfs w !! Ingestor.file_path self = Some pages →
  added_documents (calls_of (Ingestor.ingest_file E self) w) =
  emitted_chunks E self pages.
Proof.
  intros Hsuffix Hpdf. unfold calls_of, world_after.
  rewrite (ingest_file_run E self w pages Hsuffix Hpdf).
  cbn [snd ingested w_log]. rewrite drop_app_length.
  change (Call_fitz_open ?p :: ?l ++ ?r) with ([Call_fitz_open p] ++ l ++ r).
  rewrite !added_documents_app, added_documents_extract_calls.
  simpl. by rewrite app_nil_r.
Qed.

(** *** The loop over the chunks *)

Lemma enumerate_from_lookup {A} (l : list A) : ∀ start i,
  enumerate_from start l !! i = (λ x, ((start + i)%nat, x)) <$> l !! i.
Proof.
  induction l as [|x l IH]; intros start i; [done |].
  destruct i as [|i]; simpl.
  - by rewrite Nat.add_0_r.
  - rewrite IH. by rewrite Nat.add_succ_r.
Qed.

Lemma emitted_chunks_lookup E self pages i d :
  emitted_chunks E self pages !! i = Some d →
  ∃ chunk, split_chunks E self pages !! i = Some chunk
           ∧ d = Ingestor.tag_document self i chunk.
Proof.
  unfold emitted_chunks, enumerate.
  rewrite list_lookup_fmap, enumerate_from_lookup.
  destruct (split_chunks E self pages !! i) as [chunk|]; [| done].
  simpl. intros [= <-]. by exists chunk.
Qed.

Lemma emitted_chunks_Forall2 E self pages (P : Document → Document → Prop) :
  (∀ i chunk, P chunk (Ingestor.tag_document self i chunk)) →
  Forall2 P (split_chunks E self pages) (emitted_chunks E self pages).
Proof.
  intros HP. unfold emitted_chunks, enumerate.
  generalize 0%nat as start. generalize (split_chunks E self pages) as chunks.
  induction chunks as [|chunk chunks IH]; intros start; simpl.
  - constructor.
  - constructor; [apply HP | apply IH].
Qed.

Lemma setdefault_lookup_ne key key' v (d : gmap string value) :
  key ≠ key' → setdefault key v d !! key' = d !! key'.
Proof.
  intros Hne. unfold setdefault.
  destruct (d !! key); [done |]. by rewrite lookup_insert_ne.
Qed.

Lemma tag_document_chunk_id self idx doc :
  metadata (Ingestor.tag_document self idx doc) !! "chunk_id"
  = Some (Int (Z.of_nat idx)).
Proof.
  unfold Ingestor.tag_document.
  destruct (decide (get "page" (metadata doc) = None_));
    simpl; by rewrite lookup_insert_eq.
Qed.



Lemma lit_PAGINA : lit "[PAGINA " = lit "[" ++ lit "PAGINA" ++ lit " ".
Proof. by vm_compute. Qed.

Lemma tag_document_tagged self idx chunk :
  tagged_with "PAGINA" chunk (Ingestor.tag_document self idx chunk).
Proof.
  unfold tagged_with, page_tag, Ingestor.tag_document, Spec.page_marker.
  destruct (decide (get "page" (metadata chunk) = None_)); [done |].
  simpl. rewrite lit_PAGINA. by rewrite <- !app_assoc.
Qed.

(** C5. The documents a successful [ingest_file] hands to the vector store
    carry as ["chunk_id"] their 0-based position in that sequence. *)
Theorem ingest_file_chunk_ids E (self : Ingestor.t) w w' :
  Ingestor.ingest_file E self w = (inr tt, w') →
  ∀ i d,
    added_documents (calls_of (Ingestor.ingest_file E self) w) !! i = Some d →
    metadata d !! "chunk_id" = Some (Int (Z.of_nat i)).
Proof.
  intros (pages & Hsuffix & Hpdf & _)%ingest_file_ok_inv i d.
  rewrite (added_documents_ingest_file E self w pages Hsuffix Hpdf).
  intros (chunk & _ & ->)%emitted_chunks_lookup.
  apply tag_document_chunk_id.
Qed.

Lemma ingest_file_chunk_ids_witness :
  metadata Example.nota_stored !! "chunk_id" = Some (Int (Z.of_nat 0)).
Proof.
  apply (ingest_file_chunk_ids Example.collaborators Example.nota_ingestor
           Example.nota_ready Example.nota_once).
  - vm_compute. reflexivity.
  - vm_compute. reflexivity.
Defined.

(** C6. When the suffix of the file path is not [.pdf], [ingest_file] raises
    [ValueError] and does nothing else: no file is opened, nothing is split,
    nothing is added to the vector store, and the world is left as it was. *)
Theorem ingest_file_unsupported E (self : Ingestor.t) w :
  pathlib.suffix (Ingestor.file_path self) ≠ lit ".pdf" →
  result (Ingestor.ingest_file E self) w =
    inl (ValueError (lit "The file must be a pdf."))
  ∧ calls_of (Ingestor.ingest_file E self) w = []
  ∧ world_after (Ingestor.ingest_file E self) w = w.
Proof.
  intros Hsuffix. unfold result, calls_of, world_after.
  rewrite (ingest_file_not_pdf E self w Hsuffix). simpl.
  by rewrite drop_all.
Qed.

Lemma ingest_file_unsupported_witness :
  result (Ingestor.ingest_file Example.collaborators Example.txt_ingestor)
    Example.world =
    inl (ValueError (lit "The file must be a pdf."))
  ∧ calls_of (Ingestor.ingest_file Example.collaborators Example.txt_ingestor)
      Example.world = []
  ∧ world_after
      (Ingestor.ingest_file Example.collaborators Example.txt_ingestor)
      Example.world = Example.world.
Proof.
  apply (ingest_file_unsupported Example.collaborators Example.txt_ingestor
           Example.world).
  vm_compute. discriminate.
Defined.

(** C10. The extension check compares the suffix with [.pdf] exactly: a
    file that is a valid PDF but whose suffix is any other string, for
    example [.PDF], is rejected with [ValueError] before it is opened. *)
Theorem ingest_file_suffix_exact E (self : Ingestor.t) w pages :
  w_pdfs w !! Ingestor.file_path self = Some pages →
  pathlib.suffix (Ingestor.file_path self) ≠ lit ".pdf" →
  result (Ingestor.ingest_file E self) w =
    inl (ValueError (lit "The file must be a pdf."))
  ∧ Call_fitz_open (Ingestor.file_path self)
      ∉ calls_of (Ingestor.ingest_file E self) w.
Proof.
  intros _ Hsuffix. unfold result, calls_of, world_after.
  rewrite (ingest_file_not_pdf E self w Hsuffix). simpl.
  rewrite drop_all. split; [done |]. apply not_elem_of_nil.
Qed.

Lemma ingest_file_suffix_exact_witness :
  pathlib.suffix Example.upper_pdf = lit ".PDF"
  ∧ result (Ingestor.ingest_file Example.collaborators Example.upper_ingestor)
      Example.upper_world =
    inl (ValueError (lit "The file must be a pdf."))
  ∧ Call_fitz_open Example.upper_pdf
      ∉ calls_of
          (Ingestor.ingest_file Example.collaborators Example.upper_ingestor)
          Example.upper_world.
Proof.
  split; [by vm_compute |].
  apply (ingest_file_suffix_exact Example.collaborators Example.upper_ingestor
           Example.upper_world Example.atto_pages).
  - vm_compute. reflexivity.
  - vm_compute. discriminate.
Defined.

(** *** The page marker *)

(** C1, as the code has it. Each document a successful [ingest_file] hands
    to the vector store is the chunk the splitter returned at the same
    position, with the marker ["[PAGINA <n>]\n"] in front when the chunk's
    metadata has a page [n], and with its text unchanged when it has none. *)
Theorem ingest_file_page_marker E (self : Ingestor.t) w w' :
  Ingestor.ingest_file E self w = (inr tt, w') →
  ∃ pages,
    w_pdfs w !! Ingestor.file_path self = Some pages
    ∧ Forall2 (tagged_with "PAGINA") (split_chunks E self pages)
        (added_documents (calls_of (Ingestor.ingest_file E self) w)).
Proof.
  intros (pages & Hsuffix & Hpdf & _)%ingest_file_ok_inv.
  exists pages. split; [done |].
  rewrite (added_documents_ingest_file E self w pages Hsuffix Hpdf).
  apply emitted_chunks_Forall2. intros i chunk. apply tag_document_tagged.
Qed.

Lemma ingest_file_page_marker_witness :
  ∃ pages,
    w_pdfs Example.nota_ready !! Ingestor.file_path Example.nota_ingestor
      = Some pages
    ∧ Forall2 (tagged_with "PAGINA")
        (split_chunks Example.collaborators Example.nota_ingestor pages)
        (added_documents
           (calls_of
              (Ingestor.ingest_file Example.collaborators
                 Example.nota_ingestor) Example.nota_ready)).
Proof.
  apply (ingest_file_page_marker Example.collaborators Example.nota_ingestor
           Example.nota_ready Example.nota_once).
  vm_compute. reflexivity.
Defined.

(** C1, as stated, fails: the chunk of the one-page PDF ["aaaa"] has page 1
    and is stored as ["[PAGINA 1]\naaaa"], not as ["[PAGE 1]\naaaa"]. *)
Lemma page_marker_is_not_PAGE :
  Ingestor.ingest_file Example.collaborators Example.nota_ingestor
    Example.nota_ready = (inr tt, Example.nota_once)
  ∧ map page_content
      (split_chunks Example.collaborators Example.nota_ingestor [lit "aaaa"])
    = [lit "aaaa"]
  ∧ map page_content
      (added_documents
         (calls_of
            (Ingestor.ingest_file Example.collaborators Example.nota_ingestor)
            Example.nota_ready))
    = [lit "[PAGINA 1]
aaaa"]
  ∧ ¬ Forall2 (tagged_with "PAGE")
        (split_chunks Example.collaborators Example.nota_ingestor [lit "aaaa"])
        (added_documents
           (calls_of
              (Ingestor.ingest_file Example.collaborators
                 Example.nota_ingestor) Example.nota_ready)).
Proof.
  split; [by vm_compute |]. split; [by vm_compute |].
  split; [by vm_compute |].
  intros H. vm_compute in H. inversion H as [|? ? ? ? Htag _]; subst.
  discriminate Htag.
Qed.

(** *** Chunk lengths *)







(** ** Resetting the index *)

Lemma fresh_ids_length n : ∀ r, length (fresh_ids r n) = n.
Proof. induction n as [|n IH]; intros r; simpl; [done |]. by rewrite IH. Qed.

Lemma fresh_ids_ge n : ∀ r i, i ∈ fresh_ids r n → (r ≤ i)%N.
Proof.
  induction n as [|n IH]; intros r i; simpl.
  - by intros ?%elem_of_nil.
  - intros [-> | Hi%IH]%elem_of_cons; lia.
Qed.

Lemma fresh_ids_NoDup n : ∀ r, NoDup (fresh_ids r n).
Proof.
  induction n as [|n IH]; intros r; simpl; constructor; [| apply IH].
  intros Hr%fresh_ids_ge. lia.
Qed.

(** Distinct ids: the collection gains exactly the pairs of ids and
    documents. *)
Lemma upsert_union ids : ∀ documents (c : gmap N Document),
  NoDup ids →
  Chroma.upsert ids documents c = list_to_map (zip ids documents) ∪ c.
Proof.
  induction ids as [|i ids IH]; intros documents c Hids.
  - simpl. by rewrite (left_id_L ∅ (∪)).
  - destruct documents as [|d documents].
    + simpl. by rewrite (left_id_L ∅ (∪)).
    + apply NoDup_cons in Hids as [Hi Hids].
      cbn [Chroma.upsert zip zip_with list_to_map foldr uncurry fst snd].
      rewrite IH by done.
      rewrite <- insert_union_l. symmetry. apply insert_union_r.
      apply not_elem_of_list_to_map_1. intros Hin. apply Hi.
      apply list_elem_of_fmap in Hin as ([i' d'] & -> & Hin).
      simpl. by apply elem_of_zip_l in Hin.
Qed.






(** ** [PdfChat] *)

Section Chat.
Variable E : Collaborators.
Variable self : PdfChat.t.

Let store := PdfChat.store (PdfChat.retriever self).
Let k := PdfChat.k (PdfChat.retriever self).

(** The messages the chat model receives for [query] over the collection
    [c]. *)
Let rendered (c : gmap N Document) (query : str) : list Message :=
  stuff_prompt E (PdfChat.prompt_message self) query
    (similarity_search E c query k).

Lemma ask_run query w :
  PdfChat.ask E self query w =
  (inr (chat_model E (rendered (Chroma.collection store w) query) (w_rand w)),
   set_rand N.succ
     (log_calls
        [ Call_retriever (Chroma.persist_directory store) query k;
          Call_chat_model (rendered (Chroma.collection store w) query) ] w)).
Proof.
  unfold PdfChat.ask, PdfChat.retrieval_chain_invoke, PdfChat.retriever_invoke,
    PdfChat.chat_model_invoke.
  unfold_M. cbn match. rewrite log_calls_app. done.
Qed.

Lemma ask_chroma query w :
  w_chroma (world_after (PdfChat.ask E self query) w) = w_chroma w.
Proof. unfold world_after. by rewrite ask_run. Qed.

Lemma asks_chroma queries : ∀ w,
  w_chroma (world_after (PdfChat.asks E self queries) w) = w_chroma w.
Proof.
  induction queries as [|query queries IH]; intros w; [done |].
  unfold world_after in *. cbn [PdfChat.asks].
  unfold mbind, M_bind. rewrite ask_run.
  specialize (IH (set_rand N.succ
                    (log_calls
                       [ Call_retriever (Chroma.persist_directory store)
                           query k;
                         Call_chat_model
                           (rendered (Chroma.collection store w) query) ] w))).
  destruct (PdfChat.asks E self queries _) as [[e|answers] w'];
    simpl in *; by rewrite IH.
Qed.

End Chat.


(** * Further properties *)

(** ** [SmartPDFLoader.load] *)

(** X1. [load] has no effect but the requests it makes: whether it returns
    or raises, the files, the directories, the persisted collections and the
    random source are as before. *)
Theorem load_only_logs E (self : SmartPDFLoader.t) w :
  world_after (SmartPDFLoader.load E self) w
  = log_calls (calls_of (SmartPDFLoader.load E self) w) w.
Proof.
  destruct (w_pdfs w !! SmartPDFLoader.file_path self) as [pages|] eqn:Hpdf.
  - pose proof (load_found E self w pages Hpdf) as Hrun.
    assert (Hw : world_after (SmartPDFLoader.load E self) w
                 = log_calls
                     (Call_fitz_open (SmartPDFLoader.file_path self)
                        :: Spec.extract_calls E (SmartPDFLoader.file_path self)
                             (SmartPDFLoader.lang self) pages) w)
      by (unfold world_after; by rewrite Hrun).
    by rewrite (calls_of_log_calls _ _ _ Hw).
  - pose proof (load_missing E self w Hpdf) as Hrun.
    unfold calls_of, world_after. rewrite Hrun. simpl.
    by rewrite drop_all, log_calls_nil.
Qed.

Lemma PageDocument_page text n source is_ocr :
  metadata (Spec.PageDocument text n source is_ocr) !! "page" = Some (Int n).
Proof. done. Qed.

Lemma doc_page_PageDocument text n source is_ocr :
  doc_page (Spec.PageDocument text n source is_ocr) = n.
Proof. done. Qed.

Lemma page_documents_cases E pdf_path lang i native :
  Spec.page_documents E pdf_path lang i native = []
  ∨ ∃ text is_ocr,
      Spec.page_documents E pdf_path lang i native
      = [Spec.PageDocument text (Z.of_nat i + 1) (pathlib.name pdf_path)
           is_ocr]
      ∧ is_ocr = negb (truthy (strip native)).
Proof.
  unfold Spec.page_documents.
  destruct (truthy (strip native)); [right; by eauto |].
  destruct (truthy (strip (Spec.ocr_output _ _ _ _))); [right | left]; eauto.
Qed.

(** The documents of the pages from [off] on: numbered within their range,
    in increasing order. *)
Lemma extract_from_sorted E pdf_path lang sfx : ∀ off,
  Forall (λ d, metadata d !! "page" = Some (Int (doc_page d))
               ∧ Z.of_nat off + 1 ≤ doc_page d
                 ≤ Z.of_nat off + Z.of_nat (length sfx))
    (concat (imap (λ i, Spec.page_documents E pdf_path lang (off + i)) sfx))
  ∧ StronglySorted (λ a b, doc_page a < doc_page b)
      (concat (imap (λ i, Spec.page_documents E pdf_path lang (off + i)) sfx)).
Proof.
  induction sfx as [|native sfx IH]; intros off.
  - split; constructor.
  - cbn [imap concat length].
    assert (Hext :
      imap ((λ i, Spec.page_documents E pdf_path lang (off + i)) ∘ S) sfx
      = imap (λ i, Spec.page_documents E pdf_path lang (S off + i)) sfx).
    { apply imap_ext. intros i x _. simpl. f_equal. lia. }
    rewrite Hext. destruct (IH (S off)) as [Hall Hsorted].
    assert (Hall' :
      Forall (λ d, metadata d !! "page" = Some (Int (doc_page d))
                   ∧ Z.of_nat off + 2 ≤ doc_page d
                     ≤ Z.of_nat off + Z.of_nat (S (length sfx)))
        (concat (imap (λ i, Spec.page_documents E pdf_path lang (S off + i))
                   sfx))).
    { eapply Forall_impl; [exact Hall |]. intros d [Hd Hr]. split; [done |].
      lia. }
    destruct (page_documents_cases E pdf_path lang (off + 0) native)
      as [-> | (text & is_ocr & -> & _)].
    + simpl. split; [| done].
      eapply Forall_impl; [exact Hall' |]. intros d [Hd Hr]. split; [done |].
      lia.
    + simpl. split.
      * constructor.
        { rewrite doc_page_PageDocument. split; [done |]. lia. }
        eapply Forall_impl; [exact Hall' |]. intros d [Hd Hr].
        split; [done |]. lia.
      * constructor; [done |].
        eapply Forall_impl; [exact Hall' |]. intros d [Hd Hr].
        rewrite doc_page_PageDocument. lia.
Qed.

Lemma concat_imap_length {A B} (l : list A) : ∀ g : nat → A → list B,
  (∀ i x, (length (g i x) ≤ 1)%nat) →
  (length (concat (imap g l)) ≤ length l)%nat.
Proof.
  induction l as [|x l IH]; intros g Hg; [done |].
  cbn [imap concat length]. rewrite length_app.
  pose proof (Hg 0%nat x). pose proof (IH (g ∘ S) (λ i y, Hg (S i) y)). lia.
Qed.

Lemma page_documents_length E pdf_path lang i native :
  (length (Spec.page_documents E pdf_path lang i native) ≤ 1)%nat.
Proof.
  destruct (page_documents_cases E pdf_path lang i native)
    as [-> | (text & is_ocr & -> & _)]; simpl; lia.
Qed.

(** X2. The documents [load] returns follow the page order: each carries a
    page number between 1 and the number of pages of the PDF, and the
    numbers increase strictly along the list, so no page gives two
    documents and there are at most as many documents as pages. *)
Theorem load_pages_increasing E (self : SmartPDFLoader.t) w docs w' :
  SmartPDFLoader.load E self w = (inr docs, w') →
  ∃ pages,
    w_pdfs w !! SmartPDFLoader.file_path self = Some pages
    ∧ Forall (λ d, metadata d !! "page" = Some (Int (doc_page d))
                   ∧ 1 ≤ doc_page d ≤ Z.of_nat (length pages)) docs
    ∧ StronglySorted (λ a b, doc_page a < doc_page b) docs
    ∧ (length docs ≤ length pages)%nat.
Proof.
  intros Hload.
  destruct (w_pdfs w !! SmartPDFLoader.file_path self) as [pages|] eqn:Hpdf.
  - rewrite (load_found E self w pages Hpdf) in Hload.
    injection Hload as <- _. exists pages. split; [done |].
    destruct (extract_from_sorted E (SmartPDFLoader.file_path self)
                (SmartPDFLoader.lang self) pages 0) as [Hall Hsorted].
    split; [exact Hall |]. split; [exact Hsorted |].
    apply concat_imap_length. intros i x. apply page_documents_length.
  - by rewrite (load_missing E self w Hpdf) in Hload.
Qed.

Lemma load_pages_increasing_witness :
  ∃ pages,
    w_pdfs Example.world !! SmartPDFLoader.file_path Example.loader
    = Some pages
    ∧ Forall (λ d, metadata d !! "page" = Some (Int (doc_page d))
                   ∧ 1 ≤ doc_page d ≤ Z.of_nat (length pages))
        (Spec.extract Example.collaborators Example.atto_pdf (lit "ita")
           Example.atto_pages)
    ∧ StronglySorted (λ a b, doc_page a < doc_page b)
        (Spec.extract Example.collaborators Example.atto_pdf (lit "ita")
           Example.atto_pages)
    ∧ (length (Spec.extract Example.collaborators Example.atto_pdf (lit "ita")
                 Example.atto_pages) ≤ length pages)%nat.
Proof.
  apply (load_pages_increasing Example.collaborators Example.loader
           Example.world _
           (log_calls
              (Call_fitz_open Example.atto_pdf
                 :: Spec.extract_calls Example.collaborators Example.atto_pdf
                      (lit "ita") Example.atto_pages) Example.world)).
  vm_compute. reflexivity.
Defined.

(** X3. On a PDF whose pages all have native text, [load] returns exactly one
    document per page, in page order, each with the stripped native text and
    [ocr = False], and makes no request but the opening of the file: nothing
    is rasterised and nothing recognised. *)
Theorem load_all_native E (self : SmartPDFLoader.t) w pages :
  w_pdfs w !! SmartPDFLoader.file_path self = Some pages →
  Forall (λ native, truthy (strip native) = true) pages →
  result (SmartPDFLoader.load E self) w
  = inr (imap (λ i native,
                 Spec.PageDocument (strip native) (Z.of_nat i + 1)
                   (pathlib.name (SmartPDFLoader.file_path self)) false)
           pages)
  ∧ calls_of (SmartPDFLoader.load E self) w
    = [Call_fitz_open (SmartPDFLoader.file_path self)].
Proof.
  intros Hpdf Hnative.
  pose proof (load_found E self w pages Hpdf) as Hrun.
  assert (Hdocs : ∀ off,
    concat (imap (λ i, Spec.page_documents E (SmartPDFLoader.file_path self)
                         (SmartPDFLoader.lang self) (off + i)) pages)
    = imap (λ i native,
              Spec.PageDocument (strip native) (Z.of_nat (off + i) + 1)
                (pathlib.name (SmartPDFLoader.file_path self)) false) pages
    ∧ concat (imap (λ i, Spec.page_calls E (SmartPDFLoader.file_path self)
                           (SmartPDFLoader.lang self) (off + i)) pages) = []).
  { clear Hpdf Hrun.
    induction Hnative as [|native pages Hn _ IH]; intros off; [done |].
    cbn [imap concat].
    unfold Spec.page_documents at 1, Spec.page_calls at 1. rewrite Hn.
    destruct (IH (S off)) as [IHd IHc]. split.
    - simpl. f_equal.
      etrans; [| etrans; [exact IHd |]].
      + f_equal. apply imap_ext. intros i x _. simpl. do 2 f_equal. lia.
      + apply imap_ext. intros i x _. simpl. do 3 f_equal. lia.
    - simpl. etrans; [| exact IHc].
      f_equal. apply imap_ext. intros i x _. simpl. do 2 f_equal. lia. }
  destruct (Hdocs 0%nat) as [Hd Hc]. split.
  - unfold result. rewrite Hrun. simpl. f_equal. exact Hd.
  - apply calls_of_log_calls. unfold world_after. rewrite Hrun. simpl.
    unfold Spec.extract_calls.
    change (imap (Spec.page_calls E (SmartPDFLoader.file_path self)
                    (SmartPDFLoader.lang self)) pages)
      with (imap (λ i, Spec.page_calls E (SmartPDFLoader.file_path self)
                         (SmartPDFLoader.lang self) (0 + i)) pages).
    by rewrite Hc.
Qed.

Lemma load_all_native_witness :
  result (SmartPDFLoader.load Example.collaborators
            (SmartPDFLoader.mk Example.nota_pdf (lit "ita")))
    Example.nota_world
  = inr (imap (λ i native,
                 Spec.PageDocument (strip native) (Z.of_nat i + 1)
                   (pathlib.name
                      (SmartPDFLoader.file_path
                         (SmartPDFLoader.mk Example.nota_pdf (lit "ita"))))
                   false)
           [lit "aaaa"])
  ∧ calls_of (SmartPDFLoader.load Example.collaborators
                (SmartPDFLoader.mk Example.nota_pdf (lit "ita")))
      Example.nota_world
    = [Call_fitz_open
         (SmartPDFLoader.file_path
            (SmartPDFLoader.mk Example.nota_pdf (lit "ita")))].
Proof.
  apply (load_all_native Example.collaborators
           (SmartPDFLoader.mk Example.nota_pdf (lit "ita"))
           Example.nota_world [lit "aaaa"]).
  - vm_compute. reflexivity.
  - constructor; [by vm_compute | constructor].
Defined.

(** X4. Every document [load] returns comes from one page of the PDF and
    says so: its metadata has exactly the keys [source], [page] and [ocr],
    holding the file name, the 1-based number of that page, and whether the
    page had no native text (so that its text was recognised). *)
Theorem load_provenance E (self : SmartPDFLoader.t) w docs w' :
  SmartPDFLoader.load E self w = (inr docs, w') →
  ∃ pages,
    w_pdfs w !! SmartPDFLoader.file_path self = Some pages
    ∧ ∀ d, d ∈ docs →
        ∃ i native,
          pages !! i = Some native
          ∧ metadata d
            = {[ "source" :=
                   Str (pathlib.name (SmartPDFLoader.file_path self));
                 "page" := Int (Z.of_nat i + 1);
                 "ocr" := Bool (negb (truthy (strip native))) ]}.
Proof.
  intros Hload.
  destruct (w_pdfs w !! SmartPDFLoader.file_path self) as [pages|] eqn:Hpdf.
  - rewrite (load_found E self w pages Hpdf) in Hload.
    injection Hload as <- _. exists pages. split; [done |]. intros d Hd.
    apply list_elem_of_In, in_concat in Hd as (l & Hl & Hd).
    apply list_elem_of_In, elem_of_lookup_imap in Hl
      as (i & native & -> & Hi).
    exists i, native. split; [done |].
    destruct (page_documents_cases E (SmartPDFLoader.file_path self)
                (SmartPDFLoader.lang self) i native)
      as [Hnil | (text & is_ocr & Hone & ->)].
    + rewrite Hnil in Hd. destruct Hd.
    + rewrite Hone in Hd. destruct Hd as [<- | []]. done.
  - by rewrite (load_missing E self w Hpdf) in Hload.
Qed.

Lemma load_provenance_witness :
  ∃ pages,
    w_pdfs Example.world !! SmartPDFLoader.file_path Example.loader
    = Some pages
    ∧ ∀ d,
        d ∈ Spec.extract Example.collaborators Example.atto_pdf (lit "ita")
              Example.atto_pages →
        ∃ i native,
          pages !! i = Some native
          ∧ metadata d
            = {[ "source" :=
                   Str (pathlib.name (SmartPDFLoader.file_path Example.loader));
                 "page" := Int (Z.of_nat i + 1);
                 "ocr" := Bool (negb (truthy (strip native))) ]}.
Proof.
  apply (load_provenance Example.collaborators Example.loader Example.world _
           (log_calls
              (Call_fitz_open Example.atto_pdf
                 :: Spec.extract_calls Example.collaborators Example.atto_pdf
                      (lit "ita") Example.atto_pages) Example.world)).
  vm_compute. reflexivity.
Defined.

(** *** Counting the recognition requests *)





(** ** [Ingestor.__init__] *)

(** The world [__init__] leaves. *)
Lemma init_world root file_name chunk_size chunk_overlap w :
  Ingestor.__init__ root file_name chunk_size chunk_overlap w =
  (inr (Ingestor.mk chunk_size chunk_overlap
          (pathlib.joinpath root (lit "data"))
          (pathlib.joinpath (pathlib.joinpath root (lit "db"))
             (lit "chroma_langchain_db"))
          (pathlib.joinpath (pathlib.joinpath root (lit "data")) file_name)
          (Chroma.mk (lit "documents")
             (pathlib.joinpath (pathlib.joinpath root (lit "db"))
                (lit "chroma_langchain_db")))),
   {| w_dirs :=
        if bool_decide (pathlib.joinpath root (lit "data") ∈ w_dirs w)
        then w_dirs w
        else {[pathlib.joinpath root (lit "data")]} ∪ w_dirs w;
      w_pdfs := w_pdfs w;
      w_chroma :=
        <[pathlib.joinpath (pathlib.joinpath root (lit "db"))
            (lit "chroma_langchain_db") := ∅]> (w_chroma w);
      w_rand := w_rand w;
      w_log :=
        w_log w ++
        (if bool_decide
              (is_Some
                 (w_chroma w
                    !! pathlib.joinpath (pathlib.joinpath root (lit "db"))
                         (lit "chroma_langchain_db")))
         then [Call_rmtree
                 (pathlib.joinpath (pathlib.joinpath root (lit "db"))
                    (lit "chroma_langchain_db"))]
         else []) ++
        [Call_Chroma (lit "documents")
           (pathlib.joinpath (pathlib.joinpath root (lit "db"))
              (lit "chroma_langchain_db"))] |}).
Proof.
  unfold Ingestor.__init__, Ingestor._instantiate_vector_store, Chroma.new,
    rmtree.
  set (dir := pathlib.joinpath (pathlib.joinpath root (lit "db"))
                (lit "chroma_langchain_db")).
  set (data := pathlib.joinpath root (lit "data")).
  unfold_M. destruct w as [dirs pdfs chroma rand log].
  cbn [w_dirs w_chroma].
  destruct (bool_decide (data ∈ dirs));
    cbn [w_chroma set_dirs w_dirs w_pdfs w_rand w_log];
    destruct (chroma !! dir) as [c|] eqn:Hdir.
  - rewrite bool_decide_eq_true_2 by eauto.
    unfold log_calls, set_log, set_chroma. cbn.
    rewrite lookup_delete_eq, insert_delete_eq. by rewrite <- app_assoc.
  - rewrite bool_decide_eq_false_2 by (by intros [? ?]).
    unfold log_calls, set_log, set_chroma. cbn. by rewrite Hdir.
  - rewrite bool_decide_eq_true_2 by eauto.
    unfold log_calls, set_log, set_chroma. cbn.
    rewrite lookup_delete_eq, insert_delete_eq. by rewrite <- app_assoc.
  - rewrite bool_decide_eq_false_2 by (by intros [? ?]).
    unfold log_calls, set_log, set_chroma. cbn. by rewrite Hdir.
Qed.


(** ** One ingestion run *)





(** ** Ids and accumulation *)

Lemma fresh_ids_lt n : ∀ r i, i ∈ fresh_ids r n → (i < r + N.of_nat n)%N.
Proof.
  induction n as [|n IH]; intros r i; simpl.
  - by intros ?%elem_of_nil.
  - intros [-> | Hi%IH]%elem_of_cons; lia.
Qed.

Lemma zip_fst_elem_of {A B} (l : list A) (k : list B) x :
  x ∈ (zip l k).*1 → x ∈ l.
Proof.
  intros ([a b] & -> & Hin)%list_elem_of_fmap. simpl.
  by apply elem_of_zip_l in Hin.
Qed.

Lemma zip_fst_NoDup {A B} (l : list A) : ∀ k : list B,
  NoDup l → NoDup (zip l k).*1.
Proof.
  induction l as [|a l IH]; intros k Hl; [constructor |].
  destruct k as [|b k]; [constructor |].
  apply NoDup_cons in Hl as [Ha Hl]. cbn. constructor; [| by apply IH].
  intros Hin. apply Ha. by apply zip_fst_elem_of in Hin.
Qed.

(** What a successful [ingest_file] leaves in its collection when the ids
    already there are older than the random source: the new pairs next to
    the old ones. *)
Lemma ingested_collection E (self : Ingestor.t) pages w :
  ids_below w →
  Chroma.collection (Ingestor.vector_store self) (ingested E self pages w)
  = list_to_map
      (zip (fresh_ids (w_rand w) (length (emitted_chunks E self pages)))
         (emitted_chunks E self pages))
    ∪ Chroma.collection (Ingestor.vector_store self) w
  ∧ list_to_map
      (zip (fresh_ids (w_rand w) (length (emitted_chunks E self pages)))
         (emitted_chunks E self pages))
    ##ₘ Chroma.collection (Ingestor.vector_store self) w.
Proof.
  intros Hbelow. split.
  - unfold Chroma.collection at 1. cbn [ingested w_chroma].
    rewrite lookup_insert_eq. cbn [default from_option id].
    apply upsert_union, fresh_ids_NoDup.
  - apply map_disjoint_spec. intros i x y Hnew Hold.
    apply elem_of_list_to_map_2, elem_of_zip_l, fresh_ids_ge in Hnew.
    unfold Chroma.collection in Hold.
    destruct (w_chroma w !! Chroma.persist_directory
                              (Ingestor.vector_store self))
      as [c|] eqn:Hc; [| done].
    assert (i < w_rand w)%N by (eapply Hbelow; eauto). lia.
Qed.

Lemma ids_below_init root file_name chunk_size chunk_overlap w :
  ids_below w →
  ids_below
    (world_after (Ingestor.__init__ root file_name chunk_size chunk_overlap) w).
Proof.
  intros Hbelow. unfold world_after. rewrite init_world. cbn [snd].
  intros dir c i. cbn [w_chroma w_rand].
  destruct (decide (pathlib.joinpath (pathlib.joinpath root (lit "db"))
                      (lit "chroma_langchain_db") = dir)) as [<-|Hne].
  - rewrite lookup_insert_eq. intros [= <-] [x Hx]. done.
  - rewrite lookup_insert_ne by done. apply Hbelow.
Qed.

Lemma ids_below_ingest_file E (self : Ingestor.t) w :
  ids_below w → ids_below (world_after (Ingestor.ingest_file E self) w).
Proof.
  intros Hbelow. unfold world_after.
  destruct (decide (pathlib.suffix (Ingestor.file_path self) = lit ".pdf"))
    as [Hsuffix|Hsuffix].
  - destruct (w_pdfs w !! Ingestor.file_path self) as [pages|] eqn:Hpdf.
    + rewrite (ingest_file_run E self w pages Hsuffix Hpdf). cbn [snd].
      intros dir c i Hc Hi.
      destruct (decide (Chroma.persist_directory (Ingestor.vector_store self)
                        = dir)) as [<-|Hne].
      * destruct (ingested_collection E self pages w Hbelow) as [Heq _].
        unfold Chroma.collection at 1 in Heq. rewrite Hc in Heq.
        cbn [default from_option id] in Heq. subst c.
        cbn [ingested w_rand].
        apply lookup_union_is_Some in Hi as [[x Hx] | [x Hx]].
        -- apply elem_of_list_to_map_2, elem_of_zip_l in Hx.
           by apply fresh_ids_lt.
        -- unfold Chroma.collection in Hx.
           destruct (w_chroma w !! Chroma.persist_directory
                                     (Ingestor.vector_store self))
             as [c|] eqn:Hc0; [| done].
           assert (i < w_rand w)%N by (eapply Hbelow; eauto). lia.
      * cbn [ingested w_chroma w_rand] in *.
        rewrite lookup_insert_ne in Hc by done.
        assert (i < w_rand w)%N by (eapply Hbelow; eauto). lia.
    + by rewrite (ingest_file_missing E self w Hsuffix Hpdf).
  - by rewrite (ingest_file_not_pdf E self w Hsuffix).
Qed.



Lemma ids_below_nota_world : ids_below Example.nota_world.
Proof. intros dir c i Hc. cbn in Hc. by rewrite lookup_empty in Hc. Qed.


(** X10. [ingest_file] only adds. When the ids in the index are older than
    the random source, a successful [ingest_file] keeps every document the
    index held under its id, stores each document it hands over under an id
    that was not in use, and so makes the index grow by exactly the number
    of documents handed over. *)
Theorem ingest_file_accumulates E (self : Ingestor.t) w w' :
  ids_below w →
  Ingestor.ingest_file E self w = (inr tt, w') →
  Chroma.collection (Ingestor.vector_store self) w
    ⊆ Chroma.collection (Ingestor.vector_store self) w'
  ∧ size (Chroma.collection (Ingestor.vector_store self) w')
    = (size (Chroma.collection (Ingestor.vector_store self) w)
       + length (added_documents (calls_of (Ingestor.ingest_file E self) w)))%nat
  ∧ ∀ d, d ∈ added_documents (calls_of (Ingestor.ingest_file E self) w) →
      ∃ i, Chroma.collection (Ingestor.vector_store self) w' !! i = Some d
           ∧ Chroma.collection (Ingestor.vector_store self) w !! i = None.
Proof.
  intros Hbelow (pages & Hsuffix & Hpdf & ->)%ingest_file_ok_inv.
  rewrite (added_documents_ingest_file E self w pages Hsuffix Hpdf).
  destruct (ingested_collection E self pages w Hbelow) as [-> Hdisj].
  set (chunks := emitted_chunks E self pages) in *.
  set (ids := fresh_ids (w_rand w) (length chunks)) in *.
  assert (Hids : NoDup (zip ids chunks).*1)
    by apply zip_fst_NoDup, fresh_ids_NoDup.
  split; [by apply map_union_subseteq_r |]. split.
  - rewrite map_size_disj_union by done.
    rewrite map_size_list_to_map by done.
    assert (Hlen : length ids = length chunks) by apply fresh_ids_length.
    rewrite length_zip_with, Hlen. lia.
  - intros d (j & Hj)%list_elem_of_lookup.
    assert (Hlen : length ids = length chunks) by apply fresh_ids_length.
    destruct (lookup_lt_is_Some_2 ids j) as [i Hi].
    { rewrite Hlen. by eapply lookup_lt_Some. }
    assert (Hnew : (list_to_map (zip ids chunks) : gmap N Document) !! i
                   = Some d).
    { apply elem_of_list_to_map_1; [done |].
      apply list_elem_of_lookup. exists j.
      rewrite lookup_zip_with, Hi. simpl. by rewrite Hj. }
    exists i. split.
    + by apply lookup_union_Some_l.
    + by eapply map_disjoint_Some_l.
Qed.

Lemma ids_below_nota_once : ids_below Example.nota_once.
Proof.
  apply ids_below_ingest_file.
  apply ids_below_init, ids_below_nota_world.
Qed.

Lemma ingest_file_accumulates_witness :
  Chroma.collection (Ingestor.vector_store Example.nota_ingestor)
    Example.nota_once
    ⊆ Chroma.collection (Ingestor.vector_store Example.nota_ingestor)
        Example.nota_twice
  ∧ size (Chroma.collection (Ingestor.vector_store Example.nota_ingestor)
            Example.nota_twice)
    = (size (Chroma.collection (Ingestor.vector_store Example.nota_ingestor)
               Example.nota_once)
       + length
           (added_documents
              (calls_of
                 (Ingestor.ingest_file Example.collaborators
                    Example.nota_ingestor) Example.nota_once)))%nat
  ∧ ∀ d,
      d ∈ added_documents
            (calls_of
               (Ingestor.ingest_file Example.collaborators
                  Example.nota_ingestor) Example.nota_once) →
      ∃ i,
        Chroma.collection (Ingestor.vector_store Example.nota_ingestor)
          Example.nota_twice !! i = Some d
        ∧ Chroma.collection (Ingestor.vector_store Example.nota_ingestor)
            Example.nota_once !! i = None.
Proof.
  apply (ingest_file_accumulates Example.collaborators Example.nota_ingestor
           Example.nota_once Example.nota_twice ids_below_nota_once).
  vm_compute. reflexivity.
Defined.

(** *** Metadata defaults *)

Lemma setdefault_lookup key v (d : gmap string value) :
  setdefault key v d !! key = Some (default v (d !! key)).
Proof.
  unfold setdefault. destruct (d !! key) eqn:Hd; simpl; [done |].
  apply lookup_insert_eq.
Qed.

Lemma tag_document_metadata self idx doc key :
  key ≠ "chunk_id" →
  metadata (Ingestor.tag_document self idx doc) !! key
  = match metadata doc !! key with
    | Some v => Some v
    | None =>
        if decide (key = "source") then
          Some (Str (pathlib.name (Ingestor.file_path self)))
        else if decide (key = "ocr") then Some (Bool false)
        else None
    end.
Proof.
  intros Hne.
  assert (Hmd : metadata (Ingestor.tag_document self idx doc)
                = <["chunk_id" := Int (Z.of_nat idx)]>
                    (setdefault "ocr" (Bool false)
                       (setdefault "source"
                          (Str (pathlib.name (Ingestor.file_path self)))
                          (metadata doc)))).
  { unfold Ingestor.tag_document.
    by destruct (decide (get "page" (metadata doc) = None_)). }
  rewrite Hmd, lookup_insert_ne by done.
  destruct (decide (key = "ocr")) as [->|Hocr].
  - rewrite setdefault_lookup, setdefault_lookup_ne by done.
    destruct (metadata doc !! "ocr"); simpl; [done |].
    by destruct (decide ("ocr" = "source")).
  - rewrite setdefault_lookup_ne by done.
    destruct (decide (key = "source")) as [->|Hsource].
    + rewrite setdefault_lookup. by destruct (metadata doc !! "source").
    + rewrite setdefault_lookup_ne by done.
      by destruct (metadata doc !! key).
Qed.

(** X11. [ingest_file] never overrides what a chunk already records. In the
    document handed to the vector store every metadata entry of the chunk
    other than ["chunk_id"] is kept as it is; a chunk without ["source"]
    gets the name of the ingested file, a chunk without ["ocr"] gets
    [False], and no other key appears. *)
Theorem ingest_file_metadata_defaults E (self : Ingestor.t) w w' :
  Ingestor.ingest_file E self w = (inr tt, w') →
  ∃ pages,
    w_pdfs w !! Ingestor.file_path self = Some pages
    ∧ Forall2
        (λ chunk d, ∀ key, key ≠ "chunk_id" →
           metadata d !! key
           = match metadata chunk !! key with
             | Some v => Some v
             | None =>
                 if decide (key = "source") then
                   Some (Str (pathlib.name (Ingestor.file_path self)))
                 else if decide (key = "ocr") then Some (Bool false)
                 else None
             end)
        (split_chunks E self pages)
        (added_documents (calls_of (Ingestor.ingest_file E self) w)).
Proof.
  intros (pages & Hsuffix & Hpdf & _)%ingest_file_ok_inv.
  exists pages. split; [done |].
  rewrite (added_documents_ingest_file E self w pages Hsuffix Hpdf).
  apply emitted_chunks_Forall2. intros i chunk key.
  apply tag_document_metadata.
Qed.

Lemma ingest_file_metadata_defaults_witness :
  ∃ pages,
    w_pdfs Example.nota_ready !! Ingestor.file_path Example.nota_ingestor
    = Some pages
    ∧ Forall2
        (λ chunk d, ∀ key, key ≠ "chunk_id" →
           metadata d !! key
           = match metadata chunk !! key with
             | Some v => Some v
             | None =>
                 if decide (key = "source") then
                   Some (Str (pathlib.name
                                (Ingestor.file_path Example.nota_ingestor)))
                 else if decide (key = "ocr") then Some (Bool false)
                 else None
             end)
        (split_chunks Example.collaborators Example.nota_ingestor pages)
        (added_documents
           (calls_of
              (Ingestor.ingest_file Example.collaborators
                 Example.nota_ingestor) Example.nota_ready)).
Proof.
  apply (ingest_file_metadata_defaults Example.collaborators
           Example.nota_ingestor Example.nota_ready Example.nota_once).
  vm_compute. reflexivity.
Defined.

Lemma enumerate_from_length {A} (l : list A) : ∀ start,
  length (enumerate_from start l) = length l.
Proof.
  induction l as [|x l IH]; intros start; simpl; [done |]. by rewrite IH.
Qed.

(** X12. A successful [ingest_file] is the loader, then the splitter, then
    the store: after the loader's requests it asks the splitter once, with
    its own chunk parameters and exactly the documents [load] returns for
    the file, and last hands the tagged chunks to the store, with as many
    pairwise distinct ids as there are chunks. *)
Theorem ingest_file_pipeline E (self : Ingestor.t) w w' :
  Ingestor.ingest_file E self w = (inr tt, w') →
  ∃ docs ids,
    result (SmartPDFLoader.load E
              (SmartPDFLoader.mk (Ingestor.file_path self) (lit "ita"))) w
    = inr docs
    ∧ calls_of (Ingestor.ingest_file E self) w
      = calls_of (SmartPDFLoader.load E
                    (SmartPDFLoader.mk (Ingestor.file_path self) (lit "ita")))
          w
        ++ [ Call_split_documents (Ingestor.chunk_size self)
               (Ingestor.chunk_overlap self) docs;
             Call_add_documents
               (Chroma.persist_directory (Ingestor.vector_store self))
               (map (λ '(idx, doc), Ingestor.tag_document self idx doc)
                  (enumerate
                     (text_splitter E (Ingestor.chunk_size self)
                        (Ingestor.chunk_overlap self) docs)))
               ids ]
    ∧ NoDup ids
    ∧ length ids
      = length (text_splitter E (Ingestor.chunk_size self)
                  (Ingestor.chunk_overlap self) docs).
Proof.
  intros (pages & Hsuffix & Hpdf & _)%ingest_file_ok_inv.
  pose proof (load_found E
                (SmartPDFLoader.mk (Ingestor.file_path self) (lit "ita"))
                w pages Hpdf) as Hload.
  cbn [SmartPDFLoader.file_path SmartPDFLoader.lang] in Hload.
  exists (loaded_documents E self pages),
    (fresh_ids (w_rand w) (length (emitted_chunks E self pages))).
  split; [unfold result; by rewrite Hload |]. split.
  - unfold calls_of at 1 2, world_after.
    rewrite (ingest_file_run E self w pages Hsuffix Hpdf), Hload.
    cbn [snd ingested w_log log_calls set_log].
    by rewrite !drop_app_length.
  - split; [apply fresh_ids_NoDup |].
    rewrite fresh_ids_length. unfold emitted_chunks, enumerate.
    by rewrite length_map, enumerate_from_length.
Qed.

Lemma ingest_file_pipeline_witness :
  ∃ docs ids,
    result (SmartPDFLoader.load Example.collaborators
              (SmartPDFLoader.mk (Ingestor.file_path Example.nota_ingestor)
                 (lit "ita"))) Example.nota_ready
    = inr docs
    ∧ calls_of
        (Ingestor.ingest_file Example.collaborators Example.nota_ingestor)
        Example.nota_ready
      = calls_of (SmartPDFLoader.load Example.collaborators
                    (SmartPDFLoader.mk
                       (Ingestor.file_path Example.nota_ingestor) (lit "ita")))
          Example.nota_ready
        ++ [ Call_split_documents (Ingestor.chunk_size Example.nota_ingestor)
               (Ingestor.chunk_overlap Example.nota_ingestor) docs;
             Call_add_documents
               (Chroma.persist_directory
                  (Ingestor.vector_store Example.nota_ingestor))
               (map (λ '(idx, doc),
                       Ingestor.tag_document Example.nota_ingestor idx doc)
                  (enumerate
                     (text_splitter Example.collaborators
                        (Ingestor.chunk_size Example.nota_ingestor)
                        (Ingestor.chunk_overlap Example.nota_ingestor) docs)))
               ids ]
    ∧ NoDup ids
    ∧ length ids
      = length (text_splitter Example.collaborators
                  (Ingestor.chunk_size Example.nota_ingestor)
                  (Ingestor.chunk_overlap Example.nota_ingestor) docs).
Proof.
  apply (ingest_file_pipeline Example.collaborators Example.nota_ingestor
           Example.nota_ready Example.nota_once).
  vm_compute. reflexivity.
Defined.

(** ** The extension check *)

Lemma lit_pdf : lit ".pdf" = [46; 112; 100; 102]%N.
Proof. by vm_compute. Qed.

Lemma rfind_from_absent c r : ∀ k found,
  c ∉ r → rfind_from c r k found = found.
Proof.
  induction r as [|x r IH]; intros k found Hc; [done |].
  apply not_elem_of_cons in Hc as [Hx Hr]. simpl.
  destruct (N.eqb_spec x c) as [-> | _]; [done |]. by apply IH.
Qed.

Lemma rfind_from_last c l r : ∀ k found,
  c ∉ r → rfind_from c (l ++ c :: r) k found = Some (k + length l)%nat.
Proof.
  induction l as [|x l IH]; intros k found Hc; simpl.
  - rewrite N.eqb_refl, rfind_from_absent by done. f_equal. lia.
  - rewrite IH by done. f_equal. lia.
Qed.

Lemma rfind_last c l r : c ∉ r → rfind c (l ++ c :: r) = Some (length l).
Proof. intros Hc. unfold rfind. by rewrite rfind_from_last. Qed.

(** The paths with suffix [.pdf]: those whose final component is a
    non-empty stem followed by [.pdf]. *)
Lemma suffix_pdf_stem p :
  pathlib.suffix p = lit ".pdf"
  ↔ ∃ stem, stem ≠ [] ∧ pathlib.name p = stem ++ lit ".pdf".
Proof.
  unfold pathlib.suffix. rewrite lit_pdf. split.
  - destruct (rfind pathlib.dot (pathlib.name p)) as [i|]; [| done].
    destruct ((0 <? i) && (i <? length (pathlib.name p) - 1))%nat eqn:Hguard;
      [| done].
    apply andb_prop in Hguard as [Hpos%Nat.ltb_lt Hlt%Nat.ltb_lt].
    intros Hdrop. exists (take i (pathlib.name p)). split.
    + intros Htake. apply (f_equal length) in Htake.
      rewrite length_take in Htake. simpl in Htake. lia.
    + rewrite <- Hdrop. symmetry. apply take_drop.
  - intros (stem & Hne & ->).
    change [46; 112; 100; 102]%N with (pathlib.dot :: [112; 100; 102]%N).
    rewrite rfind_last.
    + rewrite length_app. simpl.
      destruct stem as [|c stem]; [done |]. simpl.
      replace (length stem + 4 - 0)%nat with (S (S (S (S (length stem)))))
        by lia.
      rewrite (proj2 (Nat.ltb_lt _ _)) by lia. simpl.
      by rewrite drop_app_length.
    + intros Hin. apply list_elem_of_In in Hin. simpl in Hin.
      unfold pathlib.dot in Hin.
      destruct Hin as [H | [H | [H | []]]]; discriminate H.
Qed.

(** X13. [ingest_file] rejects a path with the [ValueError] of its
    extension check exactly when the final component of the path is not a
    non-empty stem followed by [.pdf]: [atto.pdf] passes, while [atto.PDF],
    [atto.pdf.bak], [atto] and the bare [.pdf] are rejected. *)
Theorem ingest_file_accepts_stem_pdf E (self : Ingestor.t) w :
  result (Ingestor.ingest_file E self) w
  = inl (ValueError (lit "The file must be a pdf."))
  ↔ ¬ ∃ stem,
        stem ≠ []
        ∧ pathlib.name (Ingestor.file_path self) = stem ++ lit ".pdf".
Proof.
  rewrite <- suffix_pdf_stem. unfold result. split.
  - intros Hres Hsuffix.
    destruct (w_pdfs w !! Ingestor.file_path self) as [pages|] eqn:Hpdf.
    + by rewrite (ingest_file_run E self w pages Hsuffix Hpdf) in Hres.
    + by rewrite (ingest_file_missing E self w Hsuffix Hpdf) in Hres.
  - intros Hsuffix. by rewrite (ingest_file_not_pdf E self w Hsuffix).
Qed.

Lemma ingest_file_accepts_stem_pdf_witness :
  result (Ingestor.ingest_file Example.collaborators Example.upper_ingestor)
    Example.upper_world
  = inl (ValueError (lit "The file must be a pdf."))
  ↔ ¬ ∃ stem,
        stem ≠ []
        ∧ pathlib.name (Ingestor.file_path Example.upper_ingestor)
          = stem ++ lit ".pdf".
Proof.
  apply (ingest_file_accepts_stem_pdf Example.collaborators
           Example.upper_ingestor Example.upper_world).
Defined.

Example stems_accepted_and_rejected :
  pathlib.suffix (lit "/app/data/atto.pdf") = lit ".pdf"
  ∧ pathlib.suffix (lit "/app/data/atto.pdf.bak") ≠ lit ".pdf"
  ∧ pathlib.suffix (lit "/app/data/atto") ≠ lit ".pdf"
  ∧ pathlib.suffix (lit "/app/data/.pdf") ≠ lit ".pdf".
Proof. repeat split; by vm_compute. Qed.

(** ** [PdfChat.ask], repeatedly *)

Lemma asks_run E (self : PdfChat.t) queries : ∀ w,
  PdfChat.asks E self queries w =
  (inr (imap (λ i query,
                chat_model E
                  (chat_messages E self
                     (Chroma.collection (PdfChat.store (PdfChat.retriever self))
                        w) query)
                  (w_rand w + N.of_nat i)%N) queries),
   set_rand (λ r, r + N.of_nat (length queries))%N
     (log_calls
        (flat_map
           (ask_calls_over E self
              (Chroma.collection (PdfChat.store (PdfChat.retriever self)) w))
           queries) w)).
Proof.
  induction queries as [|query queries IH]; intros w.
  - simpl. unfold_M. destruct w; unfold log_calls, set_log, set_rand; simpl.
    by rewrite app_nil_r, N.add_0_r.
  - cbn [PdfChat.asks]. unfold mbind, M_bind. rewrite ask_run, IH.
    unfold mret, M_ret.
    cbn [imap flat_map length]. f_equal.
    + f_equal. f_equal.
      * by rewrite N.add_0_r.
      * apply imap_ext. intros i q _. destruct w; cbn. f_equal. lia.
    + destruct w; unfold log_calls, set_log, set_rand, ask_calls_over,
        chat_messages, Chroma.collection; cbn.
      f_equal; [lia |]. by rewrite <- app_assoc.
Qed.

(** X14. A sequence of [ask] calls never fails and answers each question
    against the same index: the requests made are, question after question,
    one retrieval and one generation over the collection as it was before
    the first call, and the answers are the chat model's texts for those
    messages under successive seeds. *)
Theorem asks_over_fixed_index E (self : PdfChat.t) queries w :
  result (PdfChat.asks E self queries) w
  = inr (imap (λ i query,
                 chat_model E
                   (chat_messages E self
                      (Chroma.collection
                         (PdfChat.store (PdfChat.retriever self)) w) query)
                   (w_rand w + N.of_nat i)%N) queries)
  ∧ calls_of (PdfChat.asks E self queries) w
    = flat_map
        (ask_calls_over E self
           (Chroma.collection (PdfChat.store (PdfChat.retriever self)) w))
        queries.
Proof.
  unfold result, calls_of, world_after. rewrite asks_run. split; [done |].
  destruct w; cbn. by rewrite drop_app_length.
Qed.

(** ** [PdfChat.chat] *)

Lemma is_quit_q : PdfChat.is_quit (lit "q") = true.
Proof. by vm_compute. Qed.

Lemma retrieval_chain_run E (self : PdfChat.t) input w :
  PdfChat.retrieval_chain_invoke E self input w =
  (inr (chat_model E
          (chat_messages E self
             (Chroma.collection (PdfChat.store (PdfChat.retriever self)) w)
             input) (w_rand w)),
   set_rand N.succ
     (log_calls
        (ask_calls_over E self
           (Chroma.collection (PdfChat.store (PdfChat.retriever self)) w)
           input) w)).
Proof.
  unfold PdfChat.retrieval_chain_invoke, PdfChat.retriever_invoke,
    PdfChat.chat_model_invoke.
  unfold_M. cbn match. rewrite log_calls_app. done.
Qed.

(** The loop on any input: how it ends, what it leaves unread, what it
    wrote after [stdout], and the world it leaves. *)
Lemma chat_run E (self : PdfChat.t) stdin : ∀ stdout w,
  ∃ out,
    PdfChat.chat E self stdin stdout w =
    (inr (fst (chat_end stdin), snd (chat_end stdin), stdout ++ out),
     set_rand (λ r, r + N.of_nat (length (questions stdin)))%N
       (log_calls
          (flat_map
             (turn_calls_over E self
                (Chroma.collection (PdfChat.store (PdfChat.retriever self)) w))
             (questions stdin)) w)).
Proof.
  induction stdin as [|query stdin IH]; intros stdout w.
  - eexists. cbn [PdfChat.chat chat_end questions fst snd flat_map length].
    unfold mret, M_ret. f_equal.
    destruct w; unfold log_calls, set_log, set_rand; cbn.
    by rewrite app_nil_r, N.add_0_r.
  - cbn [PdfChat.chat chat_end questions].
    destruct (PdfChat.is_quit query) eqn:Hquit.
    + eexists. cbn [fst snd flat_map length]. unfold mret, M_ret. f_equal.
      destruct w; unfold log_calls, set_log, set_rand; cbn.
      by rewrite app_nil_r, N.add_0_r.
    + unfold mbind at 1, M_bind at 1.
      unfold PdfChat.retriever_invoke at 1. unfold_M. cbn match.
      rewrite retrieval_chain_run.
      match goal with
      | |- context [PdfChat.chat E self stdin ?so ?w1] =>
          destruct (IH so w1) as [out Hrun]; rewrite Hrun
      end.
      eexists. f_equal.
      * do 2 f_equal. rewrite <- !app_assoc. reflexivity.
      * destruct w; unfold log_calls, set_log, set_rand, turn_calls_over,
          ask_calls_over, chat_messages, Chroma.collection; cbn.
        f_equal; [lia |]. by rewrite <- !app_assoc.
Qed.

(** X15. The console loop treats the input lines before the first [q] or
    [Q] as questions. It ends with [Quit] at that line, leaving the lines
    after it unread, or with [EOFError] when the input has no such line.
    Whatever it had written stays written, each question costs two
    retrievals and one generation over the index as it was when the loop
    started, and the index is left as it was. *)
Theorem chat_loop E (self : PdfChat.t) stdin stdout w :
  ∃ out,
    result (PdfChat.chat E self stdin stdout) w
    = inr (fst (chat_end stdin), snd (chat_end stdin), stdout ++ out)
    ∧ calls_of (PdfChat.chat E self stdin stdout) w
      = flat_map
          (turn_calls_over E self
             (Chroma.collection (PdfChat.store (PdfChat.retriever self)) w))
          (questions stdin)
    ∧ w_chroma (world_after (PdfChat.chat E self stdin stdout) w) = w_chroma w.
Proof.
  destruct (chat_run E self stdin stdout w) as [out Hrun].
  exists out. unfold result, calls_of, world_after. rewrite Hrun.
  split; [done |]. split; [| done].
  destruct w; cbn. by rewrite drop_app_length.
Qed.

Lemma questions_before_quit queries quit rest :
  Forall (λ query, PdfChat.is_quit query = false) queries →
  PdfChat.is_quit quit = true →
  questions (queries ++ quit :: rest) = queries
  ∧ chat_end (queries ++ quit :: rest) = (Quit, rest).
Proof.
  intros Hq Hquit. induction Hq as [|query queries Hquery _ [IHq IHe]]; simpl.
  - by rewrite Hquit.
  - by rewrite Hquery, IHq, IHe.
Qed.

Lemma questions_no_quit queries :
  Forall (λ query, PdfChat.is_quit query = false) queries →
  questions queries = queries ∧ chat_end queries = (EOFError, []).
Proof.
  intros Hq. induction Hq as [|query queries Hquery _ [IHq IHe]]; simpl.
  - done.
  - by rewrite Hquery, IHq, IHe.
Qed.

Lemma turn_calls_counts E (self : PdfChat.t) c queries :
  length (List.filter is_retrieval
            (flat_map (turn_calls_over E self c) queries))
  = (2 * length queries)%nat
  ∧ length (List.filter is_generation
              (flat_map (turn_calls_over E self c) queries))
    = length queries.
Proof.
  induction queries as [|query queries [IHr IHg]]; [done |].
  cbn. rewrite IHr, IHg. split; lia.
Qed.

(** X16. When the user types the questions [queries], none of them [q] or
    [Q], and then a line that is, [chat] returns normally with the lines
    typed after that one unread, having queried the retriever twice and the
    chat model once for each question. *)
Theorem chat_quits E (self : PdfChat.t) queries quit rest stdout w :
  Forall (λ query, PdfChat.is_quit query = false) queries →
  PdfChat.is_quit quit = true →
  (∃ out,
     result (PdfChat.chat E self (queries ++ quit :: rest) stdout) w
     = inr (Quit, rest, stdout ++ out))
  ∧ length (List.filter is_retrieval
              (calls_of (PdfChat.chat E self (queries ++ quit :: rest) stdout)
                 w))
    = (2 * length queries)%nat
  ∧ length (List.filter is_generation
              (calls_of (PdfChat.chat E self (queries ++ quit :: rest) stdout)
                 w))
    = length queries.
Proof.
  intros Hq Hquit.
  destruct (questions_before_quit queries quit rest Hq Hquit) as [Hqs Hend].
  destruct (chat_run E self (queries ++ quit :: rest) stdout w)
    as [out Hrun].
  rewrite Hqs, Hend in Hrun.
  assert (Hcalls :
    calls_of (PdfChat.chat E self (queries ++ quit :: rest) stdout) w
    = flat_map
        (turn_calls_over E self
           (Chroma.collection (PdfChat.store (PdfChat.retriever self)) w))
        queries).
  { unfold calls_of, world_after. rewrite Hrun.
    destruct w; cbn. by rewrite drop_app_length. }
  split.
  - exists out. unfold result. by rewrite Hrun.
  - rewrite Hcalls. apply turn_calls_counts.
Qed.

Lemma chat_quits_witness :
  (∃ out,
     result (PdfChat.chat Example.collaborators Example.atto_chat
               ([lit "Chi firma?"; lit "Quando?"]
                  ++ lit "Q" :: [lit "mai letta"]) []) Example.nota_once
     = inr (Quit, [lit "mai letta"], [] ++ out))
  ∧ length (List.filter is_retrieval
              (calls_of
                 (PdfChat.chat Example.collaborators Example.atto_chat
                    ([lit "Chi firma?"; lit "Quando?"]
                       ++ lit "Q" :: [lit "mai letta"]) [])
                 Example.nota_once))
    = (2 * length [lit "Chi firma?"; lit "Quando?"])%nat
  ∧ length (List.filter is_generation
              (calls_of
                 (PdfChat.chat Example.collaborators Example.atto_chat
                    ([lit "Chi firma?"; lit "Quando?"]
                       ++ lit "Q" :: [lit "mai letta"]) [])
                 Example.nota_once))
    = length [lit "Chi firma?"; lit "Quando?"].
Proof.
  apply (chat_quits Example.collaborators Example.atto_chat
           [lit "Chi firma?"; lit "Quando?"] (lit "Q") [lit "mai letta"] []
           Example.nota_once).
  - repeat constructor; by vm_compute.
  - by vm_compute.
Defined.

(** X17. When the console input ends without a line [q] or [Q], [chat]
    answers every line as a question and then ends with the [EOFError] of
    [input()], all lines read. *)
Theorem chat_runs_out_of_input E (self : PdfChat.t) queries stdout w :
  Forall (λ query, PdfChat.is_quit query = false) queries →
  (∃ out,
     result (PdfChat.chat E self queries stdout) w
     = inr (EOFError, [], stdout ++ out))
  ∧ length (List.filter is_generation
              (calls_of (PdfChat.chat E self queries stdout) w))
    = length queries.
Proof.
  intros Hq. destruct (questions_no_quit queries Hq) as [Hqs Hend].
  destruct (chat_run E self queries stdout w) as [out Hrun].
  rewrite Hqs, Hend in Hrun. split.
  - exists out. unfold result. by rewrite Hrun.
  - unfold calls_of, world_after. rewrite Hrun.
    destruct w; cbn. rewrite drop_app_length. apply turn_calls_counts.
Qed.

Lemma chat_runs_out_of_input_witness :
  (∃ out,
     result (PdfChat.chat Example.collaborators Example.atto_chat
               [lit "Chi firma?"] []) Example.nota_once
     = inr (EOFError, [], [] ++ out))
  ∧ length (List.filter is_generation
              (calls_of
                 (PdfChat.chat Example.collaborators Example.atto_chat
                    [lit "Chi firma?"] []) Example.nota_once))
    = length [lit "Chi firma?"].
Proof.
  apply (chat_runs_out_of_input Example.collaborators Example.atto_chat
           [lit "Chi firma?"] [] Example.nota_once).
  repeat constructor; by vm_compute.
Defined.

(** ** rag_server.py and main.py, end to end *)

(** The index a successful construction followed by a successful
    [ingest_file] leaves: the documents of this run under fresh ids. *)
Lemma ingestion_ok E root file_name chunk_size chunk_overlap w self w0 w1 :
  Ingestor.__init__ root file_name chunk_size chunk_overlap w = (inr self, w0) →
  Ingestor.ingest_file E self w0 = (inr tt, w1) →
  ∃ pages,
    w_pdfs w
      !! pathlib.joinpath (pathlib.joinpath root (lit "data")) file_name
    = Some pages
    ∧ w1 = ingested E self pages w0
    ∧ w_log w0
      = w_log w
        ++ (if bool_decide
                 (is_Some
                    (w_chroma w
                       !! pathlib.joinpath
                            (pathlib.joinpath root (lit "db"))
                            (lit "chroma_langchain_db")))
            then [Call_rmtree
                    (pathlib.joinpath (pathlib.joinpath root (lit "db"))
                       (lit "chroma_langchain_db"))]
            else [])
        ++ [Call_Chroma (lit "documents")
              (pathlib.joinpath (pathlib.joinpath root (lit "db"))
                 (lit "chroma_langchain_db"))]
    ∧ Chroma.collection (Ingestor.vector_store self) w1
      = list_to_map
          (zip (fresh_ids (w_rand w) (length (emitted_chunks E self pages)))
             (emitted_chunks E self pages)).
Proof.
  rewrite init_world. intros [= <- <-].
  intros (pages & Hsuffix & Hpdf & ->)%ingest_file_ok_inv.
  exists pages. split; [exact Hpdf |]. split; [done |]. split; [done |].
  unfold Chroma.collection at 1. cbn [ingested w_chroma].
  rewrite lookup_insert_eq. cbn [default from_option id].
  unfold Chroma.collection. cbn [Ingestor.vector_store Chroma.persist_directory
                                  w_chroma w_rand].
  rewrite lookup_insert_eq. cbn [default from_option id].
  rewrite upsert_union by apply fresh_ids_NoDup.
  by rewrite (right_id_L ∅ (∪)).
Qed.

(** X18. Once the server module has loaded, every request is answered from
    the index built at start-up and from nothing else: whatever index was
    persisted before and whatever questions were asked earlier, the chat
    model receives the default prompt rendered over the 15 chunks nearest to
    the question among exactly the chunks of the ingested PDF, and the
    response carries the chat model's text. *)
Theorem server_answers_from_startup_index E root w chat w1 :
  rag_server.chat E root w = (inr chat, w1) →
  ∃ ingestion pages ids,
    chat = PdfChat.__init__ ingestion None
    ∧ w_pdfs w
        !! pathlib.joinpath (pathlib.joinpath root (lit "data"))
             rag_server.file_name
      = Some pages
    ∧ NoDup ids
    ∧ length ids = length (emitted_chunks E ingestion pages)
    ∧ ∀ earlier question,
        ∃ seed,
          result
            (rag_server.chat_endpoint E chat
               (rag_server.mkChatRequest question))
            (world_after (PdfChat.asks E chat earlier) w1)
          = inr (rag_server.mkChatResponse
                   (chat_model E
                      (stuff_prompt E PdfChat.default_prompt_message question
                         (similarity_search E
                            (list_to_map
                               (zip ids (emitted_chunks E ingestion pages)))
                            question 15))
                      seed))
          ∧ calls_of
              (rag_server.chat_endpoint E chat
                 (rag_server.mkChatRequest question))
              (world_after (PdfChat.asks E chat earlier) w1)
            = [ Call_retriever
                  (pathlib.joinpath (pathlib.joinpath root (lit "db"))
                     (lit "chroma_langchain_db")) question 15;
                Call_chat_model
                  (stuff_prompt E PdfChat.default_prompt_message question
                     (similarity_search E
                        (list_to_map
                           (zip ids (emitted_chunks E ingestion pages)))
                        question 15)) ].
Proof.
  unfold rag_server.chat, mbind, M_bind, mret, M_ret.
  destruct (Ingestor.__init__ root rag_server.file_name 800 150 w)
    as [[e|ingestion] w0] eqn:Hinit; [discriminate |].
  destruct (Ingestor.ingest_file E ingestion w0) as [[e|[]] w1'] eqn:Hrun;
    [discriminate |].
  intros [= <- <-].
  destruct (ingestion_ok E root rag_server.file_name 800 150 w ingestion w0
              w1' Hinit Hrun) as (pages & Hpdf & _ & _ & Hcoll).
  assert (Hdir : Chroma.persist_directory (Ingestor.vector_store ingestion)
                 = pathlib.joinpath (pathlib.joinpath root (lit "db"))
                     (lit "chroma_langchain_db")).
  { rewrite init_world in Hinit. by injection Hinit as <- _. }
  exists ingestion, pages,
    (fresh_ids (w_rand w) (length (emitted_chunks E ingestion pages))).
  split; [done |]. split; [done |]. split; [apply fresh_ids_NoDup |].
  split; [apply fresh_ids_length |].
  intros earlier question.
  set (w2 := world_after (PdfChat.asks E (PdfChat.__init__ ingestion None)
                            earlier) w1').
  assert (Hcoll2 :
    Chroma.collection (Ingestor.vector_store ingestion) w2
    = list_to_map
        (zip (fresh_ids (w_rand w) (length (emitted_chunks E ingestion pages)))
           (emitted_chunks E ingestion pages))).
  { rewrite <- Hcoll. unfold Chroma.collection, w2. by rewrite asks_chroma. }
  exists (w_rand w2).
  unfold result, calls_of, world_after, rag_server.chat_endpoint,
    mbind, M_bind, mret, M_ret.
  rewrite ask_run.
  cbn [PdfChat.__init__ PdfChat._define_retrieval_chain PdfChat._define_prompt
       PdfChat.retriever PdfChat.store PdfChat.k PdfChat.prompt_message
       rag_server.question fst snd].
  rewrite Hcoll2, Hdir. split; [done |].
  destruct w2; cbn. by rewrite drop_app_length.
Qed.

Lemma server_answers_from_startup_index_witness :
  ∃ ingestion pages ids,
    Example.server_chat = PdfChat.__init__ ingestion None
    ∧ w_pdfs Example.server_world
        !! pathlib.joinpath (pathlib.joinpath Example.root (lit "data"))
             rag_server.file_name
      = Some pages
    ∧ NoDup ids
    ∧ length ids
      = length (emitted_chunks Example.collaborators ingestion pages)
    ∧ ∀ earlier question,
        ∃ seed,
          result
            (rag_server.chat_endpoint Example.collaborators
               Example.server_chat (rag_server.mkChatRequest question))
            (world_after
               (PdfChat.asks Example.collaborators Example.server_chat earlier)
               (world_after
                  (rag_server.chat Example.collaborators Example.root)
                  Example.server_world))
          = inr (rag_server.mkChatResponse
                   (chat_model Example.collaborators
                      (stuff_prompt Example.collaborators
                         PdfChat.default_prompt_message question
                         (similarity_search Example.collaborators
                            (list_to_map
                               (zip ids
                                  (emitted_chunks Example.collaborators
                                     ingestion pages)))
                            question 15))
                      seed))
          ∧ calls_of
              (rag_server.chat_endpoint Example.collaborators
                 Example.server_chat (rag_server.mkChatRequest question))
              (world_after
                 (PdfChat.asks Example.collaborators Example.server_chat
                    earlier)
                 (world_after
                    (rag_server.chat Example.collaborators Example.root)
                    Example.server_world))
            = [ Call_retriever
                  (pathlib.joinpath
                     (pathlib.joinpath Example.root (lit "db"))
                     (lit "chroma_langchain_db")) question 15;
                Call_chat_model
                  (stuff_prompt Example.collaborators
                     PdfChat.default_prompt_message question
                     (similarity_search Example.collaborators
                        (list_to_map
                           (zip ids
                              (emitted_chunks Example.collaborators
                                 ingestion pages)))
                        question 15)) ].
Proof.
  apply (server_answers_from_startup_index Example.collaborators Example.root
           Example.server_world Example.server_chat
           (world_after (rag_server.chat Example.collaborators Example.root)
              Example.server_world)).
  vm_compute. reflexivity.
Defined.

(** *** main.py *)











